(** * The product hotspot dialog: placement and hover state machine

    A shallow embedding of [assets/product-hotspot.js], the custom element
    [product-hotspot-component] of the theme.

    - [Geometry] embeds the arithmetic of [#calculateDialogPlacement]:
      the choice of the horizontal and vertical placement and of the
      corrective vertical offset.
    - [Dom] embeds the part of the DOM the component touches: the dialog
      element (its [open] flag, [dataset], inline [style], listeners), the
      listener lists of the trigger, of [document.body] and of
      [mediaQueryLarge], and the timer table of the event loop.
    - [Hotspot] embeds the methods of the class, one definition per method,
      with the two [async] methods split at their [await], and the event
      loop that runs them.

    Numbers: a JavaScript number is an IEEE 754 binary64 value, and so is
    a coordinate of a [DOMRect]. They are modelled as the primitive [float]
    of Rocq, whose operations are those of binary64: sums and differences
    are rounded as the source rounds them, and a comparison with NaN is
    false. *)

From Corelib Require Import PrimFloat.
From Stdlib Require Import Bool List.
From stdpp Require Import gmap strings.
Import ListNotations.

#[local] Set Warnings "-inexact-float".

(** ** Comparison operators of the source, on numbers *)

Definition js_ge (a b : float) : bool := (b <=? a)%float.          (* a >= b *)
Definition js_gt (a b : float) : bool := (b <? a)%float.           (* a >  b *)
Definition js_lt (a b : float) : bool := (a <? b)%float.           (* a <  b *)
Definition js_ne (a b : float) : bool := negb (a =? b)%float. (* a !== b *)

(** ** Geometry of [#calculateDialogPlacement] *)

Module Geometry.

Local Open Scope float_scope.

(** A [DOMRect] as [getBoundingClientRect] returns it: an origin and a
    size, with [left], [top], [right] and [bottom] derived from them, the
    last two by a binary64 sum. *)
Record DOMRect : Type := mkRect {
  rect_x : float;
  rect_y : float;
  rect_width : float;
  rect_height : float
}.

Definition rect_left (r : DOMRect) : float := rect_x r.
Definition rect_top (r : DOMRect) : float := rect_y r.
Definition rect_right (r : DOMRect) : float := rect_x r + rect_width r.
Definition rect_bottom (r : DOMRect) : float := rect_y r + rect_height r.

(** Spacing constants. *)
Definition BUTTON_GAP : float := 10.     (* gap between button and dialog *)
Definition CONTAINER_GAP : float := 10.  (* gap from container edges *)
Definition TOTAL_GAP : float := BUTTON_GAP + CONTAINER_GAP.

Inductive horizontal : Type := HRight | HLeft | HCenter.
Inductive vertical : Type := VTop | VBottom.

Record placement : Type := mkPlacement {
  px : horizontal;
  py : vertical;
  verticalOffset : float
}.

(** Button position relative to the container. *)
Definition buttonLeft (containerRect triggerRect : DOMRect) : float :=
  rect_left triggerRect - rect_left containerRect.
Definition buttonRight (containerRect triggerRect : DOMRect) : float :=
  rect_right triggerRect - rect_left containerRect.
Definition buttonTop (containerRect triggerRect : DOMRect) : float :=
  rect_top triggerRect - rect_top containerRect.
Definition buttonBottom (containerRect triggerRect : DOMRect) : float :=
  rect_bottom triggerRect - rect_top containerRect.

(** Available space. *)
Definition spaceRight (containerRect triggerRect : DOMRect) : float :=
  rect_width containerRect - buttonRight containerRect triggerRect - CONTAINER_GAP.
Definition spaceLeft (containerRect triggerRect : DOMRect) : float :=
  buttonLeft containerRect triggerRect - CONTAINER_GAP.

(** Horizontal placement. *)
Definition placeX (containerRect triggerRect : DOMRect) (dialogWidth : float)
  : horizontal :=
  if js_ge (spaceRight containerRect triggerRect) (dialogWidth + BUTTON_GAP)
  then HRight
  else if js_ge (spaceLeft containerRect triggerRect) (dialogWidth + BUTTON_GAP)
  then HLeft
  else HCenter.

(** Vertical placement and offset, given the horizontal placement [x]. The
    pair is [(y, verticalOffset)], both starting from ['bottom'] and [0]. *)
Definition placeY (x : horizontal) (containerRect triggerRect : DOMRect)
    (dialogHeight : float) : vertical * float :=
  let buttonTop := buttonTop containerRect triggerRect in
  let buttonBottom := buttonBottom containerRect triggerRect in
  match x with
  | HRight | HLeft =>
      let dialogStartY := buttonTop in
      let dialogEndY := buttonTop + dialogHeight in
      if js_gt dialogEndY (rect_height containerRect - CONTAINER_GAP) then
        (* top-aligned overflows bottom *)
        let dialogStartY := buttonBottom - dialogHeight in
        let dialogEndY := buttonBottom in
        if js_lt dialogStartY CONTAINER_GAP then
          (VTop, CONTAINER_GAP - dialogStartY)
        else if js_gt dialogEndY (rect_height containerRect - CONTAINER_GAP) then
          (VTop, - (dialogEndY - (rect_height containerRect - CONTAINER_GAP)))
        else (VTop, 0)
      else
        if js_lt dialogStartY CONTAINER_GAP then
          (* top-aligned overflows top *)
          (VBottom, CONTAINER_GAP - dialogStartY)
        else (VBottom, 0)
  | HCenter =>
      (* position below or above button *)
      if js_ge (rect_height containerRect - buttonBottom) (dialogHeight + TOTAL_GAP)
      then (VBottom, 0)
      else if js_ge buttonTop (dialogHeight + TOTAL_GAP)
      then (VTop, 0)
      else if js_lt buttonTop (rect_height containerRect / 2)
      then (VBottom, 0)
      else (VTop, 0)
  end.

(** The placement computed from the three measurements. *)
Definition calculatePlacement (containerRect triggerRect : DOMRect)
    (dialogWidth dialogHeight : float) : placement :=
  let x := placeX containerRect triggerRect dialogWidth in
  let yo := placeY x containerRect triggerRect dialogHeight in
  mkPlacement x (fst yo) (snd yo).

End Geometry.

(** ** The DOM the component touches *)

Module Dom.

(** Values of the inline style: keywords, and lengths in pixels (the
    template literal [`${verticalOffset}px`]). *)
Inductive css_value : Type :=
| CssKeyword (k : string)
| CssPx (n : float).

Inductive event_type : Type :=
| pointerenter | pointerleave | click | keydown | keyup | change.

(** The functions the component registers. Every call of
    [#setupDesktopListeners] creates a new [pointerenterHandler] closure,
    told apart by a number; the other four are fields of the instance. *)
Inductive listener : Type :=
| PointerenterHandler (closure : nat)
| HandlePointerLeave
| LightDismissMouse
| LightDismissKeyboard
| HandleBreakpointChange.

#[global] Instance event_type_eq_dec : EqDecision event_type.
Proof. solve_decision. Defined.

#[global] Instance listener_eq_dec : EqDecision listener.
Proof. solve_decision. Defined.

(** The listener list of an event target. [addEventListener] ignores a
    listener that is already registered for the type; [removeEventListener]
    drops it. *)
Definition listeners : Type := list (event_type * listener).

Definition has_listener (ty : event_type) (l : listener) (ls : listeners) : bool :=
  bool_decide ((ty, l) ∈ ls).

Definition addEventListener (ty : event_type) (l : listener) (ls : listeners)
  : listeners :=
  if has_listener ty l ls then ls else ls ++ [(ty, l)].

Definition removeEventListener (ty : event_type) (l : listener) (ls : listeners)
  : listeners :=
  filter (fun e => e ≠ (ty, l)) ls.

(** The dialog element: the [open] attribute, [dataset], the inline
    [style] and its listeners. *)
Record HTMLDialogElement : Type := mkDialog {
  open : bool;
  dataset : gmap string string;
  style : gmap string css_value;
  dialog_listeners : listeners
}.

Definition set_open (b : bool) (d : HTMLDialogElement) : HTMLDialogElement :=
  mkDialog b (dataset d) (style d) (dialog_listeners d).
Definition set_dataset (m : gmap string string) (d : HTMLDialogElement)
  : HTMLDialogElement :=
  mkDialog (open d) m (style d) (dialog_listeners d).
Definition set_style (m : gmap string css_value) (d : HTMLDialogElement)
  : HTMLDialogElement :=
  mkDialog (open d) (dataset d) m (dialog_listeners d).
Definition set_dialog_listeners (ls : listeners) (d : HTMLDialogElement)
  : HTMLDialogElement :=
  mkDialog (open d) (dataset d) (style d) ls.

(** [dialog.show()] and [dialog.close()] of a non-modal dialog. *)
Definition show (d : HTMLDialogElement) : HTMLDialogElement := set_open true d.
Definition close (d : HTMLDialogElement) : HTMLDialogElement := set_open false d.

(** What [setTimeout] was given: the hover-intent callback of
    [pointerenterHandler], or the [resolve] of the promise
    [#calculateDialogPlacement] returns. *)
Inductive timer_callback : Type :=
| HoverIntent
| PlacementSettled.

(** The nodes an event can name as [target] or [relatedTarget]. *)
Inductive node : Type :=
| NodeTrigger | NodeDialog | NodeInsideDialog | NodeElsewhere.

Record PointerEvent : Type := mkPointerEvent {
  target : node;
  relatedTarget : option node
}.

Record KeyboardEvent : Type := mkKeyboardEvent {
  type : event_type;
  key : string
}.

End Dom.

(** ** The component *)

Module Hotspot.

Import Geometry Dom.

(** The nodes the component looks up at every call, each with the rectangle
    [getBoundingClientRect] returns for it: [this.refs.trigger],
    [this.querySelector('dialog')] (measured while it is displayed as a
    block without transform) and [this.parentElement]. Any of them can be
    absent. *)
Record nodes : Type := mkNodes {
  trigger : option DOMRect;
  dialog_node : option DOMRect;
  parentElement : option DOMRect
}.

(** The mutable state: the dialog element, the listener lists of the
    trigger, of [document.body] and of [mediaQueryLarge], the two fields of
    the instance, and the event loop (the table of active timers, whose
    handles are integers greater than zero, and the number of [closeDialog]
    calls suspended at their [await]). *)
Record state : Type := mkState {
  dialog : HTMLDialogElement;
  trigger_listeners : listeners;
  body_listeners : listeners;
  mediaQueryLarge_listeners : listeners;
  pointerenterHandler : option nat;
  timer : option positive;
  timers : list (positive * timer_callback);
  next_timer : positive;
  next_closure : nat;
  awaiting_animations : nat
}.

Definition set_dialog (d : HTMLDialogElement) (s : state) : state :=
  mkState d (trigger_listeners s) (body_listeners s)
    (mediaQueryLarge_listeners s) (pointerenterHandler s) (timer s) (timers s)
    (next_timer s) (next_closure s) (awaiting_animations s).
Definition set_trigger_listeners (ls : listeners) (s : state) : state :=
  mkState (dialog s) ls (body_listeners s)
    (mediaQueryLarge_listeners s) (pointerenterHandler s) (timer s) (timers s)
    (next_timer s) (next_closure s) (awaiting_animations s).
Definition set_body_listeners (ls : listeners) (s : state) : state :=
  mkState (dialog s) (trigger_listeners s) ls
    (mediaQueryLarge_listeners s) (pointerenterHandler s) (timer s) (timers s)
    (next_timer s) (next_closure s) (awaiting_animations s).
Definition set_mediaQueryLarge_listeners (ls : listeners) (s : state) : state :=
  mkState (dialog s) (trigger_listeners s) (body_listeners s)
    ls (pointerenterHandler s) (timer s) (timers s)
    (next_timer s) (next_closure s) (awaiting_animations s).
Definition set_pointerenterHandler (h : option nat) (s : state) : state :=
  mkState (dialog s) (trigger_listeners s) (body_listeners s)
    (mediaQueryLarge_listeners s) h (timer s) (timers s)
    (next_timer s) (next_closure s) (awaiting_animations s).
Definition set_timer (t : option positive) (s : state) : state :=
  mkState (dialog s) (trigger_listeners s) (body_listeners s)
    (mediaQueryLarge_listeners s) (pointerenterHandler s) t (timers s)
    (next_timer s) (next_closure s) (awaiting_animations s).
Definition set_timers (ts : list (positive * timer_callback)) (s : state) : state :=
  mkState (dialog s) (trigger_listeners s) (body_listeners s)
    (mediaQueryLarge_listeners s) (pointerenterHandler s) (timer s) ts
    (next_timer s) (next_closure s) (awaiting_animations s).
Definition set_next_timer (n : positive) (s : state) : state :=
  mkState (dialog s) (trigger_listeners s) (body_listeners s)
    (mediaQueryLarge_listeners s) (pointerenterHandler s) (timer s) (timers s)
    n (next_closure s) (awaiting_animations s).
Definition set_next_closure (n : nat) (s : state) : state :=
  mkState (dialog s) (trigger_listeners s) (body_listeners s)
    (mediaQueryLarge_listeners s) (pointerenterHandler s) (timer s) (timers s)
    (next_timer s) n (awaiting_animations s).
Definition set_awaiting_animations (n : nat) (s : state) : state :=
  mkState (dialog s) (trigger_listeners s) (body_listeners s)
    (mediaQueryLarge_listeners s) (pointerenterHandler s) (timer s) (timers s)
    (next_timer s) (next_closure s) n.

(** How a call ends: it returns, or it throws a [TypeError] (for an
    [async] method: its promise is rejected) with the state as it is
    then. *)
Inductive outcome (A : Type) : Type :=
| Returns (a : A)
| Throws (s : state).
Arguments Returns {A} a.
Arguments Throws {A} s.

#[global] Instance outcome_bind : MBind outcome := fun A B k o =>
  match o with
  | Returns a => k a
  | Throws s => Throws s
  end.

(** The state a call leaves behind, however it ends. *)
Definition after (o : outcome state) : state :=
  match o with
  | Returns s => s
  | Throws s => s
  end.

Definition throws {A : Type} (o : outcome A) : bool :=
  match o with
  | Returns _ => false
  | Throws _ => true
  end.

(** [setTimeout] and [clearTimeout]. *)
Definition setTimeout (cb : timer_callback) (s : state) : positive * state :=
  let id := next_timer s in
  (id, set_next_timer (Pos.succ id) (set_timers (timers s ++ [(id, cb)]) s)).

Definition clearTimeout (id : positive) (s : state) : state :=
  set_timers (filter (fun t => fst t ≠ id) (timers s)) s.

(** *** [#setupDesktopListeners] and the [pointerenterHandler] closure *)

Definition setupDesktopListeners (n : nodes) (s : state) : outcome state :=
  match trigger n, dialog_node n with
  | Some _, Some _ =>
      let h := next_closure s in
      let s := set_next_closure (S h) s in
      let s := set_pointerenterHandler (Some h) s in
      Returns (set_trigger_listeners
                 (addEventListener pointerenter (PointerenterHandler h)
                    (trigger_listeners s)) s)
  | _, _ => Returns s
  end.

Definition run_pointerenterHandler (s : state) : outcome state :=
  if open (dialog s) then Returns s
  else
    let '(id, s) := setTimeout HoverIntent s in
    let s := set_timer (Some id) s in
    Returns (set_trigger_listeners
               (addEventListener pointerleave HandlePointerLeave
                  (trigger_listeners s)) s).

(** *** [#removeDesktopListeners] *)

Definition clear_timer (s : state) : state :=
  match timer s with
  | Some id => set_timer None (clearTimeout id s)
  | None => s
  end.

Definition removeDesktopListeners (n : nodes) (s : state) : outcome state :=
  let s :=
    match trigger n, pointerenterHandler s with
    | Some _, Some h =>
        let ls := removeEventListener pointerenter (PointerenterHandler h)
                    (trigger_listeners s) in
        let ls := removeEventListener pointerleave HandlePointerLeave ls in
        set_pointerenterHandler None (set_trigger_listeners ls s)
    | _, _ => s
    end in
  Returns (clear_timer s).

(** *** [#handleBreakpointChange], [connectedCallback],
    [disconnectedCallback]

    [isMobile] is what [isMobileBreakpoint()] returns at the call.

    [connectedCallback] and [disconnectedCallback] first call the callback
    of the base class [Component], which is not part of this file. It is
    taken as a parameter: it returns or it throws (it is there that
    [requiredRefs] is looked at), and it shares none of the state modelled
    here. When it throws, the rest of the callback does not run. *)

Definition handleBreakpointChange (isMobile : bool) (n : nodes) (s : state)
  : outcome state :=
  s ← removeDesktopListeners n s;
  if negb isMobile then setupDesktopListeners n s else Returns s.

Inductive base_callback : Type :=
| BaseReturns
| BaseThrows.

Definition call_base (super : base_callback) (s : state) : outcome state :=
  match super with
  | BaseReturns => Returns s
  | BaseThrows => Throws s
  end.

Definition connectedCallback (super : base_callback) (isMobile : bool)
    (n : nodes) (s : state) : outcome state :=
  s ← call_base super s;
  s ← (if negb isMobile then setupDesktopListeners n s else Returns s);
  Returns (set_mediaQueryLarge_listeners
             (addEventListener change HandleBreakpointChange
                (mediaQueryLarge_listeners s)) s).

Definition disconnectedCallback (super : base_callback) (n : nodes) (s : state)
  : outcome state :=
  s ← call_base super s;
  s ← removeDesktopListeners n s;
  Returns (set_mediaQueryLarge_listeners
             (removeEventListener change HandleBreakpointChange
                (mediaQueryLarge_listeners s)) s).

(** *** [#calculateDialogPlacement] *)

(** Show the dialog invisibly to measure it. *)
Definition show_invisibly (d : HTMLDialogElement) : HTMLDialogElement :=
  let st := <["visibility" := CssKeyword "hidden"]> (style d) in
  let st := <["display" := CssKeyword "block"]> st in
  let st := <["transform" := CssKeyword "none"]> st in
  set_dataset (delete "placement" (dataset d)) (set_style st d).

(** Reset dialog state. *)
Definition reset_measured (d : HTMLDialogElement) : HTMLDialogElement :=
  let st := delete "display" (style d) in
  let st := delete "visibility" st in
  let st := delete "transform" st in
  set_style st d.

(** The measurement step: between the two, [getBoundingClientRect] is
    read and nothing is written. *)
Definition measure (d : HTMLDialogElement) : HTMLDialogElement :=
  reset_measured (show_invisibly d).

Definition horizontal_name (x : horizontal) : string :=
  match x with
  | HRight => "right"
  | HLeft => "left"
  | HCenter => "center"
  end.

Definition vertical_name (y : vertical) : string :=
  match y with
  | VTop => "top"
  | VBottom => "bottom"
  end.

(** Set the placement data attribute and apply the vertical offset. *)
Definition publish (p : placement) (d : HTMLDialogElement) : HTMLDialogElement :=
  let d := set_dataset
             (<["placement" := horizontal_name (px p) +:+ "," +:+ vertical_name (py p)]>
                (dataset d)) d in
  if js_ne (verticalOffset p) 0
  then set_style (<["--dialog-vertical-offset" := CssPx (verticalOffset p)]> (style d)) d
  else set_style (delete "--dialog-vertical-offset" (style d)) d.

(** The result is the handle of the timer that resolves the returned
    promise, or [None] for [undefined]. Reading [getBoundingClientRect] or
    [style] of an absent node throws; nothing is written before that. *)
Definition calculateDialogPlacement (n : nodes) (s : state)
  : outcome (option positive * state) :=
  match parentElement n with
  | None => Returns (None, s)
  | Some containerRect =>
      match trigger n with
      | None => Throws s
      | Some triggerRect =>
          match dialog_node n with
          | None => Throws s
          | Some dialogRect =>
              let d := measure (dialog s) in
              let p := calculatePlacement containerRect triggerRect
                         (rect_width dialogRect) (rect_height dialogRect) in
              let s := set_dialog (publish p d) s in
              let '(id, s) := setTimeout PlacementSettled s in
              Returns (Some id, s)
          end
      end
  end.

(** *** [showDialog]

    [showDialog] runs up to its [await]; [showDialog_resume] is the rest.
    When [#calculateDialogPlacement] returns [undefined] the rest runs in
    the microtask that follows, before any other event; otherwise it runs
    when the timer of the returned promise fires. *)

Definition showDialog_resume (s : state) : state :=
  let d := set_dataset (<["showing" := "true"]> (dataset (dialog s))) (dialog s) in
  let d := show d in
  let body := addEventListener click LightDismissMouse (body_listeners s) in
  let body := addEventListener keydown LightDismissKeyboard body in
  let body := addEventListener keyup LightDismissKeyboard body in
  let d := set_dialog_listeners
             (addEventListener pointerleave HandlePointerLeave (dialog_listeners d)) d in
  set_dialog d (set_body_listeners body s).

Definition showDialog (n : nodes) (s : state) : outcome state :=
  match dialog_node n with
  | None => Returns s
  | Some _ =>
      r ← calculateDialogPlacement n s;
      match r with
      | (Some _, s) => Returns s
      | (None, s) => Returns (showDialog_resume s)
      end
  end.

(** *** [closeDialog]

    [closeDialog] runs up to its [await]; [closeDialog_resume] is the rest,
    run once the animations of the dialog have settled. *)

Definition closeDialog_resume (d : HTMLDialogElement) : HTMLDialogElement :=
  if negb (open d) then
    set_dataset (delete "placement" (delete "closing" (delete "showing" (dataset d)))) d
  else d.

Definition closeDialog (n : nodes) (s : state) : outcome state :=
  match dialog_node n with
  | None => Returns s
  | Some _ =>
      let d := set_dataset (<["closing" := "true"]> (dataset (dialog s))) (dialog s) in
      let d := close d in
      let body := removeEventListener click LightDismissMouse (body_listeners s) in
      let body := removeEventListener keydown LightDismissKeyboard body in
      let body := removeEventListener keyup LightDismissKeyboard body in
      let d := set_dialog_listeners
                 (removeEventListener pointerleave HandlePointerLeave
                    (dialog_listeners d)) d in
      let s := set_dialog d (set_body_listeners body s) in
      let s :=
        match trigger n with
        | Some _ =>
            set_trigger_listeners
              (removeEventListener pointerleave HandlePointerLeave
                 (trigger_listeners s)) s
        | None => s
        end in
      Returns (set_awaiting_animations (S (awaiting_animations s)) s)
  end.

(** *** [#handlePointerLeave] *)

Definition is_trigger (n : nodes) (x : option node) : bool :=
  match trigger n, x with
  | Some _, Some NodeTrigger => true
  | _, _ => false
  end.

Definition handlePointerLeave (e : PointerEvent) (n : nodes) (s : state)
  : outcome state :=
  (* Clear open timer if leaving trigger before dialog opens *)
  let s := clear_timer s in
  match dialog_node n with
  | None => Returns s
  | Some _ =>
      if negb (open (dialog s)) then Returns s
      else
        let isLeavingTrigger := is_trigger n (Some (target e)) in
        let isLeavingDialog :=
          match target e with NodeDialog => true | _ => false end in
        let isGoingToDialog :=
          match relatedTarget e with
          | Some NodeDialog | Some NodeInsideDialog => true
          | _ => false
          end in
        let isGoingToTrigger := is_trigger n (relatedTarget e) in
        if (isLeavingTrigger && negb isGoingToDialog)
           || (isLeavingDialog && negb isGoingToTrigger)
        then closeDialog n s
        else Returns s
  end.

(** *** [lightDismissMouse] and [lightDismissKeyboard]

    [clickedOutside] is what [isClickedOutside(event, dialog)] returns and
    [hasFocus] what [dialog.matches(':is(:focus, :focus-visible,
    :focus-within)')] returns. *)

Definition lightDismissMouse (clickedOutside : bool) (n : nodes) (s : state)
  : outcome state :=
  match dialog_node n with
  | Some _ => if clickedOutside then closeDialog n s else Returns s
  | None => Returns s
  end.

Definition lightDismissKeyboard (e : KeyboardEvent) (hasFocus : bool)
    (n : nodes) (s : state) : outcome state :=
  match dialog_node n with
  | None => Returns s
  | Some _ =>
      if (bool_decide (type e = keydown) && bool_decide (key e = "Escape"))
         || (bool_decide (type e = keyup) && negb hasFocus)
      then closeDialog n s
      else Returns s
  end.

(** *** The event loop

    One event is one task of the loop: a DOM event dispatched to the
    listeners registered for it at that moment, a timer of the table
    firing, or the animations a suspended [closeDialog] awaits having
    settled. A listener that is not registered does not run. *)

Inductive event : Type :=
| PointerEnter
| PointerLeaveTrigger (related : option node)
| PointerLeaveDialog (related : option node)
| Timeout (id : positive)
| AnimationsSettled
| Click (clickedOutside : bool)
| Key (e : KeyboardEvent) (hasFocus : bool)
| BreakpointChange (isMobile : bool).

Definition pointerenter_closures (ls : listeners) : list nat :=
  omap (fun e =>
          match e with
          | (pointerenter, PointerenterHandler h) => Some h
          | _ => None
          end) ls.

Definition timer_lookup (id : positive) (ts : list (positive * timer_callback))
  : option timer_callback :=
  snd <$> find (fun t => bool_decide (fst t = id)) ts.

Definition step (n : nodes) (e : event) (s : state) : outcome state :=
  match e with
  | PointerEnter =>
      match trigger n with
      | Some _ =>
          foldl (fun o _ => s ← o; run_pointerenterHandler s) (Returns s)
            (pointerenter_closures (trigger_listeners s))
      | None => Returns s
      end
  | PointerLeaveTrigger related =>
      match trigger n with
      | Some _ =>
          if has_listener pointerleave HandlePointerLeave (trigger_listeners s)
          then handlePointerLeave (mkPointerEvent NodeTrigger related) n s
          else Returns s
      | None => Returns s
      end
  | PointerLeaveDialog related =>
      match dialog_node n with
      | Some _ =>
          if has_listener pointerleave HandlePointerLeave
               (dialog_listeners (dialog s))
          then handlePointerLeave (mkPointerEvent NodeDialog related) n s
          else Returns s
      | None => Returns s
      end
  | Timeout id =>
      match timer_lookup id (timers s) with
      | Some HoverIntent => showDialog n (clearTimeout id s)
      | Some PlacementSettled => Returns (showDialog_resume (clearTimeout id s))
      | None => Returns s
      end
  | AnimationsSettled =>
      match awaiting_animations s with
      | S k =>
          Returns (set_dialog (closeDialog_resume (dialog s))
                     (set_awaiting_animations k s))
      | O => Returns s
      end
  | Click clickedOutside =>
      if has_listener click LightDismissMouse (body_listeners s)
      then lightDismissMouse clickedOutside n s
      else Returns s
  | Key e hasFocus =>
      if has_listener (type e) LightDismissKeyboard (body_listeners s)
      then lightDismissKeyboard e hasFocus n s
      else Returns s
  | BreakpointChange isMobile =>
      if has_listener change HandleBreakpointChange (mediaQueryLarge_listeners s)
      then handleBreakpointChange isMobile n s
      else Returns s
  end.

Fixpoint run (n : nodes) (es : list event) (s : state) : state :=
  match es with
  | [] => s
  | e :: es => run n es (after (step n e s))
  end.

(** The hover-intent timers that are pending. *)
Definition pending_hover_timers (s : state) : list positive :=
  omap (fun t =>
          match t with
          | (id, HoverIntent) => Some id
          | _ => None
          end) (timers s).

(** The handle [id] has been handed out and is no longer in the timer
    table: its callback can not run any more. *)
Definition cancelled (id : positive) (s : state) : Prop :=
  (id < next_timer s)%positive /\ timer_lookup id (timers s) = None.

(** The pointer-enter listeners on the trigger are the closure the
    component holds in [#pointerenterHandler], and no other. *)
Definition wired (s : state) : Prop :=
  pointerenter_closures (trigger_listeners s)
  = option_list (pointerenterHandler s).

(** A closed dialog, nothing registered, no timer. *)
Definition initial : state :=
  mkState (mkDialog false ∅ ∅ []) [] [] [] None None [] 1%positive 0 0.

End Hotspot.

(** ** Concrete geometries and markups

    The inputs the properties below are evaluated at. *)

Module Scenarios.

Import Geometry Dom Hotspot.
Local Open Scope float_scope.

(** The scenario of the specification: a container 400 wide, the trigger
    at x = 350..390, an overlay 100 wide. *)
Definition wide_container : DOMRect := mkRect 0 0 400 300.
Definition trigger_at_right_edge : DOMRect := mkRect 350 100 40 20.

(** A container 100 high with a trigger 20 high whose top is at 35 and
    whose bottom is at 55, for an overlay 100 by 50. *)
Definition short_container : DOMRect := mkRect 0 0 400 100.
Definition low_trigger : DOMRect := mkRect 0 35 20 20.

(** A container 100 by 100 with a trigger from y = 40 to y = 70, for an
    overlay 80 by 80 that fits on no side. *)
Definition narrow_container : DOMRect := mkRect 0 0 100 100.
Definition tall_trigger : DOMRect := mkRect 40 40 20 30.


(** An overlay 100 by 50. *)
Definition overlay_rect : DOMRect := mkRect 0 0 100 50.

(** A dialog that carries an inline transform in its markup. *)
Definition tilted_dialog : HTMLDialogElement :=
  mkDialog false ∅ {["transform" := CssKeyword "rotate(2deg)"]} [].

(** A dialog without inline style. *)
Definition plain_dialog : HTMLDialogElement := mkDialog false ∅ ∅ [].

(** The component mounted in a container, with its trigger and its
    dialog. *)
Definition mounted : nodes :=
  mkNodes (Some trigger_at_right_edge) (Some overlay_rect) (Some wide_container).

(** The component without a parent element. *)
Definition detached : nodes :=
  mkNodes (Some trigger_at_right_edge) (Some overlay_rect) None.

(** Markup without a dialog, and markup without a trigger. *)
Definition without_dialog : nodes :=
  mkNodes (Some trigger_at_right_edge) None (Some wide_container).
Definition without_trigger : nodes :=
  mkNodes None (Some overlay_rect) (Some wide_container).

(** The state after [connectedCallback] on a desktop viewport. *)
Definition connected : state :=
  after (connectedCallback BaseReturns false mounted initial).

Definition escape : event := Key (mkKeyboardEvent keydown "Escape") true.

(** One pointer that enters and leaves the trigger in turn: the first
    timer (handle 1) fires and [showDialog] awaits the placement (timer
    2); the pointer leaves and comes back, which schedules timer 3; the
    placement settles and the dialog opens; Escape closes it; the pointer
    leaves and comes back once more. *)
Definition hover_twice_during_show : list event :=
  [PointerEnter; Timeout 1; PointerLeaveTrigger None; PointerEnter;
   Timeout 2; escape; PointerLeaveTrigger None; PointerEnter].



(** The pointer is over the trigger and the hover-intent timer (handle 1)
    is pending. *)
Definition hovering : state :=
  Eval vm_compute in run mounted [PointerEnter] connected.

(** Geometries whose coordinates are not whole numbers, at which the
    rounding of the sums and differences decides the tests: a trigger at
    x = 189.1, 38.1 wide, for an overlay 152.8 wide; a container whose top
    is at 29.4 with a trigger whose top is at 244.4, for an overlay 75 high;
    a container whose top is at 39 with a trigger from 127, 33.8 high, for
    an overlay 80 by 58.2. *)
Definition fractional_trigger : DOMRect := mkRect 189.1 100 38.1 20.
Definition offset_container : DOMRect := mkRect 0 29.4 400 300.
Definition trigger_at_bottom_gap : DOMRect := mkRect 64.5 244.4 20 20.
Definition scrolled_container : DOMRect := mkRect 0 39 100 200.
Definition scrolled_trigger : DOMRect := mkRect 40 127 20 33.8.


(** The component mounted in the container whose top is at 39, with an
    overlay 80 by 58.2. *)
Definition mounted_scrolled : nodes :=
  mkNodes (Some scrolled_trigger) (Some (mkRect 0 0 80 58.2))
    (Some scrolled_container).

(** The dialog open after a hover that ran to its end. *)
Definition opened : state :=
  Eval vm_compute in run mounted [PointerEnter; Timeout 1; Timeout 2] connected.

End Scenarios.

(** * Properties *)

(** ** Placement

    The comparisons below are those of the source, on the numbers as the
    source computes them in binary64. *)

Module PlacementFacts.

Import Geometry Scenarios.
Local Open Scope float_scope.

Ltac unfold_geometry :=
  unfold spaceRight, spaceLeft, buttonLeft, buttonRight, buttonTop,
    buttonBottom in *.

(** Split on every test the placement makes. *)
Ltac placement_cases :=
  unfold calculatePlacement, placeX, placeY in *; cbn [px py verticalOffset] in *;
  unfold_geometry;
  repeat match goal with
  | |- context [if ?b then _ else _] => destruct b eqn:?
  | H : context [if ?b then _ else _] |- _ => destruct b eqn:?
  end;
  cbn [fst snd] in *.

(** C1. The horizontal placement is ['right'] when the space right of
    the trigger inside the container (container width minus the trigger's
    right edge minus the container edge gap) is at least the overlay width
    plus the trigger-to-overlay gap; otherwise ['left'] when the space on the
    left (the trigger's left edge minus the container edge gap) is; otherwise
    ['center']. So a placement other than ['center'] never needs more space
    than is available on its side. *)
Theorem horizontal_placement_by_space
    (containerRect triggerRect : DOMRect) (dialogWidth dialogHeight : float) :
  let p := calculatePlacement containerRect triggerRect dialogWidth dialogHeight in
  let right_space :=
    rect_width containerRect
    - (rect_right triggerRect - rect_left containerRect) - CONTAINER_GAP in
  let left_space :=
    (rect_left triggerRect - rect_left containerRect) - CONTAINER_GAP in
  let needed := dialogWidth + BUTTON_GAP in
  (js_ge right_space needed = true -> px p = HRight) /\
  (js_ge right_space needed = false -> js_ge left_space needed = true ->
   px p = HLeft) /\
  (js_ge right_space needed = false -> js_ge left_space needed = false ->
   px p = HCenter) /\
  (px p = HRight -> js_ge right_space needed = true) /\
  (px p = HLeft -> js_ge left_space needed = true).
Proof.
  intros p right_space left_space needed.
  subst p right_space left_space needed.
  repeat split; intros; placement_cases;
    solve [reflexivity | discriminate | congruence].
Qed.

Lemma horizontal_placement_by_space_witness :
  px (calculatePlacement wide_container trigger_at_right_edge 100 50) = HLeft.
Proof.
  apply (horizontal_placement_by_space wide_container trigger_at_right_edge 100 50).
  - vm_compute. reflexivity.
  - vm_compute. reflexivity.
Defined.

(** The tests are those of binary64. With the trigger at x = 189.1, 38.1
    wide, in a container 400 wide, the space on the right is computed as
    162.80000000000001 and the overlay 152.8 wide needs as much: the
    placement is ['right']. *)
Example horizontal_placement_rounds_as_the_source :
  px (calculatePlacement wide_container fractional_trigger 152.8 50) = HRight.
Proof. vm_compute. reflexivity. Qed.

(** C2, as stated, fails: with a container 100 high, the trigger's bottom
    at y = 55 and an overlay 50 high, [H - y < h] and [y >= h] hold and the
    placement is ['right'], yet the vertical placement stays ['bottom']:
    the trigger's top is at 35 and [35 + 50] does not pass [100 - 10]. *)
Lemma flip_by_trigger_bottom_counterexample :
  let p := calculatePlacement short_container low_trigger 100 50 in
  let H := rect_height short_container in
  let y := rect_bottom low_trigger - rect_top short_container in
  px p <> HCenter /\ js_lt (H - y) 50 = true /\ js_ge y 50 = true /\
  py p <> VTop.
Proof. vm_compute. repeat split; discriminate. Qed.

(** C2, amended. For a placement that is not ['center'], the vertical
    placement is ['top'] exactly when the overlay, started at the trigger's
    top, would end below the container's height minus the edge gap, and
    ['bottom'] otherwise; the trigger's bottom does not enter the test. *)
Theorem vertical_flip_by_top_alignment
    (containerRect triggerRect : DOMRect) (dialogWidth dialogHeight : float) :
  let p := calculatePlacement containerRect triggerRect dialogWidth dialogHeight in
  let t := rect_top triggerRect - rect_top containerRect in
  let H := rect_height containerRect in
  px p <> HCenter ->
  (js_gt (t + dialogHeight) (H - CONTAINER_GAP) = true -> py p = VTop) /\
  (js_gt (t + dialogHeight) (H - CONTAINER_GAP) = false -> py p = VBottom).
Proof.
  intros p t H. subst p t H. intros Hx.
  split; intros; placement_cases;
    solve [reflexivity | discriminate | congruence | contradiction].
Qed.

Lemma vertical_flip_by_top_alignment_witness :
  py (calculatePlacement short_container low_trigger 100 50) = VBottom.
Proof.
  apply (vertical_flip_by_top_alignment short_container low_trigger 100 50).
  - vm_compute. discriminate.
  - vm_compute. reflexivity.
Defined.

(** With the container's top at 29.4 and the trigger's top at 244.4 the
    trigger's top is computed as 215 and an overlay 75 high ends at 290,
    which does not pass [300 - 10]: the placement stays ['bottom']. *)
Example vertical_flip_rounds_as_the_source :
  let p := calculatePlacement offset_container trigger_at_bottom_gap 100 75 in
  px p = HRight /\ py p = VBottom.
Proof. vm_compute. split; reflexivity. Qed.

(** C3, as stated, fails: the overlay fits neither below nor above the
    trigger, the trigger's midpoint (55) lies in the lower half of the
    container, and the vertical placement is ['bottom']: the trigger's top
    (40) lies in the upper half. *)
Lemma centered_by_midpoint_counterexample :
  let p := calculatePlacement narrow_container tall_trigger 80 80 in
  let H := rect_height narrow_container in
  let top := rect_top tall_trigger - rect_top narrow_container in
  let bottom := rect_bottom tall_trigger - rect_top narrow_container in
  px p = HCenter /\
  js_ge (H - bottom) (80 + TOTAL_GAP) = false /\
  js_ge top (80 + TOTAL_GAP) = false /\
  js_gt ((top + bottom) / 2) (H / 2) = true /\
  py p <> VTop.
Proof. vm_compute. repeat split; discriminate. Qed.

(** C3, amended. When the horizontal placement is ['center'], the
    vertical placement is ['bottom'] if the space from the trigger's bottom
    to the container's bottom is at least the overlay height plus the total
    gap; else ['top'] if the space above the trigger is; else ['bottom'] when
    the trigger's top edge lies in the upper half of the container and
    ['top'] when it does not. *)
Theorem vertical_placement_when_centered
    (containerRect triggerRect : DOMRect) (dialogWidth dialogHeight : float) :
  let p := calculatePlacement containerRect triggerRect dialogWidth dialogHeight in
  let top := rect_top triggerRect - rect_top containerRect in
  let bottom := rect_bottom triggerRect - rect_top containerRect in
  let H := rect_height containerRect in
  let needed := dialogHeight + TOTAL_GAP in
  px p = HCenter ->
  (js_ge (H - bottom) needed = true -> py p = VBottom) /\
  (js_ge (H - bottom) needed = false -> js_ge top needed = true ->
   py p = VTop) /\
  (js_ge (H - bottom) needed = false -> js_ge top needed = false ->
   js_lt top (H / 2) = true -> py p = VBottom) /\
  (js_ge (H - bottom) needed = false -> js_ge top needed = false ->
   js_lt top (H / 2) = false -> py p = VTop).
Proof.
  intros p top bottom H needed. subst p top bottom H needed. intros Hx.
  repeat split; intros; placement_cases;
    solve [reflexivity | discriminate | congruence].
Qed.

Lemma vertical_placement_when_centered_witness :
  py (calculatePlacement narrow_container tall_trigger 80 80) = VBottom.
Proof.
  apply (vertical_placement_when_centered narrow_container tall_trigger 80 80).
  - vm_compute. reflexivity.
  - vm_compute. reflexivity.
  - vm_compute. reflexivity.
  - vm_compute. reflexivity.
Defined.

(** With the container's top at 39 and a trigger from 127, 33.8 high,
    the space below the trigger is computed as 78.199999999999989, less
    than the 78.200000000000003 an overlay 58.2 high needs: the placement
    is ['top']. *)
Example vertical_placement_rounds_as_the_source :
  let p := calculatePlacement scrolled_container scrolled_trigger 80 58.2 in
  px p = HCenter /\ py p = VTop.
Proof. vm_compute. split; reflexivity. Qed.

End PlacementFacts.

(** ** The measurement step and the published placement *)

Module MeasurementFacts.

Import Geometry Dom Hotspot Scenarios PlacementFacts.
Local Open Scope float_scope.

(** What [publish] leaves in the inline style: the offset when it is
    not zero, and nothing when it is. *)
Lemma publish_offset (p : placement) (d : HTMLDialogElement) :
  style (publish p d) !! "--dialog-vertical-offset"
  = if js_ne (verticalOffset p) 0 then Some (CssPx (verticalOffset p)) else None.
Proof.
  unfold publish. destruct (js_ne (verticalOffset p) 0); cbn.
  - apply lookup_insert_eq.
  - apply lookup_delete_eq.
Qed.

(** The placement attribute is the two names joined by a comma. *)
Lemma publish_placement (p : placement) (d : HTMLDialogElement) :
  dataset (publish p d) !! "placement"
  = Some (horizontal_name (px p) +:+ "," +:+ vertical_name (py p)).
Proof.
  unfold publish. destruct (js_ne _ _); cbn; apply lookup_insert_eq.
Qed.

(** With its three nodes present, [#calculateDialogPlacement] publishes
    the placement computed from their rectangles and returns the promise of
    the settle timer. *)
Lemma calculateDialogPlacement_publishes
    (containerRect triggerRect dialogRect : DOMRect) (s : state) :
  let n := mkNodes (Some triggerRect) (Some dialogRect) (Some containerRect) in
  let p := calculatePlacement containerRect triggerRect
             (rect_width dialogRect) (rect_height dialogRect) in
  exists s' : state,
    calculateDialogPlacement n s = Returns (Some (next_timer s), s') /\
    dialog s' = publish p (measure (dialog s)) /\
    dataset (dialog s') !! "placement"
    = Some (horizontal_name (px p) +:+ "," +:+ vertical_name (py p)).
Proof.
  intros n p. eexists. split; [reflexivity|]. split; [reflexivity|].
  apply publish_placement.
Qed.




(** C9, as stated, fails: an inline transform the overlay carried before
    the measurement is not there afterwards. *)
Lemma measure_prior_inline_counterexample :
  style tilted_dialog !! "transform" = Some (CssKeyword "rotate(2deg)") /\
  style (measure tilted_dialog) !! "transform" = None.
Proof. split; vm_compute; reflexivity. Qed.

(** C9, amended. The measurement step removes the inline [display],
    [visibility] and [transform] it wrote and changes no other inline
    property, nor the [open] flag or the listeners; so no inline style of
    the measurement is left, and the inline style is the prior one whenever
    the overlay carried none of the three before. *)
Theorem measure_leaves_no_inline_style (d : HTMLDialogElement) :
  style (measure d) !! "display" = None /\
  style (measure d) !! "visibility" = None /\
  style (measure d) !! "transform" = None /\
  (forall k : string,
      k <> "display" -> k <> "visibility" -> k <> "transform" ->
      style (measure d) !! k = style d !! k) /\
  open (measure d) = open d /\
  dialog_listeners (measure d) = dialog_listeners d /\
  (style d !! "display" = None ->
   style d !! "visibility" = None ->
   style d !! "transform" = None ->
   style (measure d) = style d).
Proof.
  assert (Hother : forall k : string,
             k <> "display" -> k <> "visibility" -> k <> "transform" ->
             style (measure d) !! k = style d !! k).
  { intros k H1 H2 H3. cbn.
    rewrite !lookup_delete_ne by congruence.
    rewrite !lookup_insert_ne by congruence. reflexivity. }
  assert (Hd : style (measure d) !! "display" = None).
  { cbn. rewrite !lookup_delete_ne by discriminate. apply lookup_delete_eq. }
  assert (Hv : style (measure d) !! "visibility" = None).
  { cbn. rewrite lookup_delete_ne by discriminate. apply lookup_delete_eq. }
  assert (Ht : style (measure d) !! "transform" = None).
  { cbn. apply lookup_delete_eq. }
  repeat split; try assumption; try reflexivity.
  intros H1 H2 H3. apply map_eq. intros k.
  destruct (decide (k = "display")) as [->|N1]; [congruence|].
  destruct (decide (k = "visibility")) as [->|N2]; [congruence|].
  destruct (decide (k = "transform")) as [->|N3]; [congruence|].
  apply Hother; assumption.
Qed.

Lemma measure_leaves_no_inline_style_witness :
  style (measure plain_dialog) = style plain_dialog.
Proof.
  apply (measure_leaves_no_inline_style plain_dialog); reflexivity.
Defined.

End MeasurementFacts.

(** ** Show, close and the absent nodes *)

Module LifecycleFacts.

Import Geometry Dom Hotspot Scenarios.

(** Unfold the methods down to the tests they make. *)
Ltac unfold_methods :=
  unfold handleBreakpointChange, connectedCallback, disconnectedCallback,
    lightDismissMouse, lightDismissKeyboard, handlePointerLeave, showDialog,
    closeDialog, calculateDialogPlacement, setupDesktopListeners,
    removeDesktopListeners, run_pointerenterHandler, setTimeout, call_base in *;
  unfold mbind, outcome_bind in *.

Ltac method_cases :=
  unfold_methods; repeat case_match; simplify_eq; try reflexivity.

(** What [closeDialog] does to the dialog element when there is one. *)
Lemma closeDialog_dialog (n : nodes) (s : state) (r : DOMRect) :
  dialog_node n = Some r ->
  dialog (after (closeDialog n s))
  = set_dialog_listeners
      (removeEventListener pointerleave HandlePointerLeave
         (dialog_listeners (dialog s)))
      (close (set_dataset (<["closing" := "true"]> (dataset (dialog s))) (dialog s)))
  /\ awaiting_animations (after (closeDialog n s)) = S (awaiting_animations s).
Proof.
  intros Hd. unfold closeDialog. rewrite Hd.
  destruct (trigger n); split; reflexivity.
Qed.



(** C5, as stated, fails: without a parent element the placement
    computation returns at once and leaves the state as it is, yet
    [showDialog] goes on and opens the dialog. *)
Lemma show_without_container_counterexample :
  calculateDialogPlacement detached initial = Returns (None, initial) /\
  open (dialog initial) = false /\
  open (dialog (after (showDialog detached initial))) = true.
Proof. repeat split. Qed.

(** Without a trigger the placement computation throws, and the promise
    of [showDialog] is rejected, the dialog staying closed. *)
Example placement_without_trigger_throws :
  throws (calculateDialogPlacement without_trigger initial) = true /\
  showDialog without_trigger initial = Throws initial.
Proof. split; reflexivity. Qed.

(** C5, amended. Setting up and removing the listeners, the breakpoint
    handler, the pointer-leave handler, [closeDialog] and the two dismissal
    handlers never throw, whichever nodes are absent; the mount and unmount
    callbacks throw only when the callback of the base class they call first
    does. Without a dialog, [showDialog], [closeDialog], the dismissal
    handlers and the listener setup return with the state unchanged, and the
    pointer-leave handler only clears the timer. Without a trigger, the
    listener setup changes nothing and the teardown only clears the timer.
    Without a container, the placement computation returns at once with the
    state unchanged, and [showDialog] then marks the dialog as showing and
    opens it. *)
Theorem absent_nodes_degrade_silently (n : nodes) (s : state) :
  (forall isMobile : bool,
      throws (setupDesktopListeners n s) = false /\
      throws (removeDesktopListeners n s) = false /\
      throws (handleBreakpointChange isMobile n s) = false) /\
  (forall (super : base_callback) (isMobile : bool),
      (throws (connectedCallback super isMobile n s) = true <-> super = BaseThrows) /\
      (throws (disconnectedCallback super n s) = true <-> super = BaseThrows)) /\
  (forall e : PointerEvent, throws (handlePointerLeave e n s) = false) /\
  throws (closeDialog n s) = false /\
  (forall clickedOutside : bool,
      throws (lightDismissMouse clickedOutside n s) = false) /\
  (forall (e : KeyboardEvent) (hasFocus : bool),
      throws (lightDismissKeyboard e hasFocus n s) = false) /\
  (dialog_node n = None ->
     showDialog n s = Returns s /\
     closeDialog n s = Returns s /\
     setupDesktopListeners n s = Returns s /\
     (forall clickedOutside : bool,
         lightDismissMouse clickedOutside n s = Returns s) /\
     (forall (e : KeyboardEvent) (hasFocus : bool),
         lightDismissKeyboard e hasFocus n s = Returns s) /\
     (forall e : PointerEvent,
         handlePointerLeave e n s = Returns (clear_timer s))) /\
  (trigger n = None ->
     setupDesktopListeners n s = Returns s /\
     removeDesktopListeners n s = Returns (clear_timer s)) /\
  (parentElement n = None ->
     calculateDialogPlacement n s = Returns (None, s) /\
     (dialog_node n <> None -> showDialog n s = Returns (showDialog_resume s))).
Proof.
  repeat split; intros; method_cases; try congruence; try discriminate.
Qed.

Lemma absent_nodes_degrade_silently_witness :
  showDialog without_dialog initial = Returns initial /\
  calculateDialogPlacement detached initial = Returns (None, initial).
Proof.
  destruct (absent_nodes_degrade_silently without_dialog initial)
    as (_ & _ & _ & _ & _ & _ & Hdialog & _).
  destruct (absent_nodes_degrade_silently detached initial)
    as (_ & _ & _ & _ & _ & _ & _ & _ & Hcontainer).
  split.
  - exact (proj1 (Hdialog eq_refl)).
  - exact (proj1 (Hcontainer eq_refl)).
Defined.

End LifecycleFacts.

(** ** The hover-intent timer and the breakpoint *)

Module HoverFacts.

Import Dom Hotspot Scenarios LifecycleFacts.

(** *** The timer table *)

Lemma timer_lookup_None (id : positive) (ts : list (positive * timer_callback)) :
  timer_lookup id ts = None <-> id ∉ ts.*1.
Proof.
  unfold timer_lookup. induction ts as [|[i cb] ts IH]; cbn.
  - split; [intros _; apply not_elem_of_nil | reflexivity].
  - rewrite not_elem_of_cons. case_bool_decide; cbn in *.
    + split; [discriminate | intros [Hne _]; congruence].
    + rewrite IH. split; [intros H'; split; [congruence | exact H'] | intros [_ H']; exact H'].
Qed.

Lemma timer_lookup_filter (id : positive) (P : positive * timer_callback -> Prop)
    `{!forall t, Decision (P t)} (ts : list (positive * timer_callback)) :
  timer_lookup id ts = None -> timer_lookup id (filter P ts) = None.
Proof.
  rewrite !timer_lookup_None. intros Hn Hin. apply Hn.
  apply list_elem_of_fmap in Hin as [t [-> Ht]].
  apply list_elem_of_fmap. exists t. split; [reflexivity|].
  apply list_elem_of_filter in Ht. apply Ht.
Qed.

Lemma timer_lookup_snoc (id id' : positive) (cb : timer_callback)
    (ts : list (positive * timer_callback)) :
  timer_lookup id ts = None -> id <> id' ->
  timer_lookup id (ts ++ [(id', cb)]) = None.
Proof.
  rewrite !timer_lookup_None. intros Hn Hne.
  rewrite fmap_app, elem_of_app. cbn. intros [Hin | Hin]; [contradiction|].
  apply list_elem_of_singleton in Hin. contradiction.
Qed.

Lemma timer_lookup_cleared (id : positive) (ts : list (positive * timer_callback)) :
  timer_lookup id (filter (fun t => fst t ≠ id) ts) = None.
Proof.
  apply timer_lookup_None. intros Hin.
  apply list_elem_of_fmap in Hin as [t [-> Ht]].
  apply list_elem_of_filter in Ht as [Hne _]. contradiction.
Qed.

(** *** A cancelled timer stays cancelled *)

Ltac project_state :=
  cbn [after dialog trigger_listeners body_listeners mediaQueryLarge_listeners
       pointerenterHandler timer timers next_timer next_closure
       awaiting_animations set_dialog set_trigger_listeners set_body_listeners
       set_mediaQueryLarge_listeners set_pointerenterHandler set_timer
       set_timers set_next_timer set_next_closure set_awaiting_animations
       clearTimeout clear_timer showDialog_resume fst snd] in *.

Ltac cancelled_by_cases :=
  let Hlt := fresh "Hlt" in
  let Hnone := fresh "Hnone" in
  intros [Hlt Hnone]; unfold cancelled in *; unfold_methods;
  unfold clear_timer in *;
  repeat case_match; simplify_eq; project_state;
  (split;
   [ lia
   | repeat first
       [ assumption
       | apply timer_lookup_filter
       | apply timer_lookup_snoc; [|lia] ] ]).

Section Cancelled.

Variable id : positive.
Variable n : nodes.

Lemma clear_timer_cancelled (s : state) :
  cancelled id s -> cancelled id (clear_timer s).
Proof. cancelled_by_cases. Qed.

Lemma clearTimeout_cancelled (id' : positive) (s : state) :
  cancelled id s -> cancelled id (clearTimeout id' s).
Proof. cancelled_by_cases. Qed.

Lemma showDialog_resume_cancelled (s : state) :
  cancelled id s -> cancelled id (showDialog_resume s).
Proof. cancelled_by_cases. Qed.

Lemma run_pointerenterHandler_cancelled (s : state) :
  cancelled id s -> cancelled id (after (run_pointerenterHandler s)).
Proof. cancelled_by_cases. Qed.

Lemma setupDesktopListeners_cancelled (s : state) :
  cancelled id s -> cancelled id (after (setupDesktopListeners n s)).
Proof. cancelled_by_cases. Qed.

Lemma removeDesktopListeners_cancelled (s : state) :
  cancelled id s -> cancelled id (after (removeDesktopListeners n s)).
Proof. cancelled_by_cases. Qed.

Lemma handleBreakpointChange_cancelled (isMobile : bool) (s : state) :
  cancelled id s -> cancelled id (after (handleBreakpointChange isMobile n s)).
Proof. cancelled_by_cases. Qed.

Lemma closeDialog_cancelled (s : state) :
  cancelled id s -> cancelled id (after (closeDialog n s)).
Proof. cancelled_by_cases. Qed.

Lemma showDialog_cancelled (s : state) :
  cancelled id s -> cancelled id (after (showDialog n s)).
Proof. cancelled_by_cases. Qed.

Lemma handlePointerLeave_cancelled (e : PointerEvent) (s : state) :
  cancelled id s -> cancelled id (after (handlePointerLeave e n s)).
Proof. cancelled_by_cases. Qed.

Lemma lightDismissMouse_cancelled (clickedOutside : bool) (s : state) :
  cancelled id s -> cancelled id (after (lightDismissMouse clickedOutside n s)).
Proof. cancelled_by_cases. Qed.

Lemma lightDismissKeyboard_cancelled (e : KeyboardEvent) (hasFocus : bool)
    (s : state) :
  cancelled id s -> cancelled id (after (lightDismissKeyboard e hasFocus n s)).
Proof. cancelled_by_cases. Qed.

End Cancelled.

Lemma run_pointerenterHandler_returns (s : state) :
  run_pointerenterHandler s = Returns (after (run_pointerenterHandler s)).
Proof. unfold run_pointerenterHandler. destruct (open (dialog s)); reflexivity. Qed.

Lemma pointerenter_dispatch_cancelled (id : positive) (l : list nat) (s : state) :
  cancelled id s ->
  cancelled id
    (after (foldl (fun o _ => s ← o; run_pointerenterHandler s) (Returns s) l)).
Proof.
  revert s. induction l as [|h l IH]; intros s Hc; [exact Hc|].
  cbn [foldl]. unfold mbind at 2, outcome_bind at 2.
  rewrite run_pointerenterHandler_returns.
  apply IH, run_pointerenterHandler_cancelled, Hc.
Qed.

Lemma step_cancelled (id : positive) (n : nodes) (e : event) (s : state) :
  cancelled id s -> cancelled id (after (step n e s)).
Proof.
  intros Hc.
  destruct e as [|related|related|id0| |clickedOutside|e hasFocus|isMobile];
    cbn [step].
  - destruct (trigger n); [|exact Hc].
    apply pointerenter_dispatch_cancelled, Hc.
  - destruct (trigger n); [|exact Hc].
    destruct (has_listener _ _ _); [|exact Hc].
    apply handlePointerLeave_cancelled, Hc.
  - destruct (dialog_node n); [|exact Hc].
    destruct (has_listener _ _ _); [|exact Hc].
    apply handlePointerLeave_cancelled, Hc.
  - destruct (timer_lookup id0 (timers s)) as [[|]|]; [| |exact Hc].
    + apply showDialog_cancelled, clearTimeout_cancelled, Hc.
    + apply showDialog_resume_cancelled, clearTimeout_cancelled, Hc.
  - destruct (awaiting_animations s); exact Hc.
  - destruct (has_listener _ _ _); [|exact Hc].
    apply lightDismissMouse_cancelled, Hc.
  - destruct (has_listener _ _ _); [|exact Hc].
    apply lightDismissKeyboard_cancelled, Hc.
  - destruct (has_listener _ _ _); [|exact Hc].
    apply handleBreakpointChange_cancelled, Hc.
Qed.

Lemma run_cancelled (id : positive) (n : nodes) (es : list event) (s : state) :
  cancelled id s -> cancelled id (run n es s).
Proof.
  revert s. induction es as [|e es IH]; intros s Hc; [exact Hc|].
  cbn [run]. apply IH, step_cancelled, Hc.
Qed.

(** A timer that is not in the table does not fire. *)
Lemma cancelled_never_fires (id : positive) (n : nodes) (s : state) :
  cancelled id s -> step n (Timeout id) s = Returns s.
Proof. intros [_ Hnone]. cbn [step]. rewrite Hnone. reflexivity. Qed.

(** *** Listener lists *)

Lemma has_listener_false (ty : event_type) (l : listener) (ls : listeners) :
  has_listener ty l ls = false <-> (ty, l) ∉ ls.
Proof. unfold has_listener. apply bool_decide_eq_false. Qed.

Lemma has_listener_true (ty : event_type) (l : listener) (ls : listeners) :
  has_listener ty l ls = true <-> (ty, l) ∈ ls.
Proof. unfold has_listener. apply bool_decide_eq_true. Qed.

Lemma has_listener_removed (ty ty' : event_type) (l l' : listener) (ls : listeners) :
  has_listener ty l ls = false ->
  has_listener ty l (removeEventListener ty' l' ls) = false.
Proof.
  rewrite !has_listener_false. unfold removeEventListener. intros Hn Hin.
  apply list_elem_of_filter in Hin. apply Hn, Hin.
Qed.

Lemma has_listener_remove (ty : event_type) (l : listener) (ls : listeners) :
  has_listener ty l (removeEventListener ty l ls) = false.
Proof.
  rewrite has_listener_false. unfold removeEventListener. intros Hin.
  apply list_elem_of_filter in Hin as [Hne _]. contradiction.
Qed.

Lemma has_listener_add (ty : event_type) (l : listener) (ls : listeners) :
  has_listener ty l (addEventListener ty l ls) = true.
Proof.
  unfold addEventListener. destruct (has_listener ty l ls) eqn:E; [exact E|].
  apply has_listener_true, elem_of_app. right. apply list_elem_of_singleton.
  reflexivity.
Qed.

(** Registering a listener that is registered already changes nothing. *)
Lemma addEventListener_idempotent (ty : event_type) (l : listener) (ls : listeners) :
  addEventListener ty l (addEventListener ty l ls) = addEventListener ty l ls.
Proof.
  unfold addEventListener at 1. rewrite has_listener_add. reflexivity.
Qed.

(** *** Pointer-enter while the dialog is open *)

(** X11. While the dialog is open a pointer-enter schedules no timer and
    registers nothing: the state stays as it is. *)
Lemma pointerenter_while_open (n : nodes) (s : state) :
  open (dialog s) = true -> step n PointerEnter s = Returns s.
Proof.
  intros Ho. cbn [step]. destruct (trigger n); [|reflexivity].
  induction (pointerenter_closures (trigger_listeners s)) as [|h l IH] using rev_ind;
    [reflexivity|].
  rewrite foldl_app. cbn [foldl]. rewrite IH.
  unfold mbind, outcome_bind, run_pointerenterHandler. rewrite Ho. reflexivity.
Qed.

(** *** Leaving the trigger before the dialog opens *)

(** C6, as stated, fails: after a pointer-enter the timer is pending and
    the pointer-leave listener is on the trigger; after the pointer-leave
    that follows no timer is pending, and the listener is still on the
    trigger. *)
Lemma pointer_leave_keeps_listener_counterexample :
  let pending := run mounted [PointerEnter] connected in
  let idle := run mounted [PointerLeaveTrigger None] pending in
  pending_hover_timers pending = [1%positive] /\
  open (dialog pending) = false /\
  has_listener pointerleave HandlePointerLeave (trigger_listeners pending) = true /\
  pending_hover_timers idle = [] /\
  has_listener pointerleave HandlePointerLeave (trigger_listeners idle) <> false.
Proof. vm_compute. repeat split; discriminate. Qed.

(** C6, amended. When the pointer leaves the trigger while the dialog is
    not open and the hover-intent timer is pending, the timer is cancelled
    (it is no longer in the timer table and [timer] is reset), and the
    dialog and the listeners of the trigger are left as they are: the
    pointer-leave listener registered at pointer-enter stays registered. *)
Theorem pointer_leave_before_open
    (n : nodes) (s : state) (id : positive) (related : option node) :
  trigger n <> None ->
  has_listener pointerleave HandlePointerLeave (trigger_listeners s) = true ->
  open (dialog s) = false ->
  timer s = Some id ->
  let s' := after (step n (PointerLeaveTrigger related) s) in
  timer s' = None /\
  timer_lookup id (timers s') = None /\
  trigger_listeners s' = trigger_listeners s /\
  has_listener pointerleave HandlePointerLeave (trigger_listeners s') = true /\
  dialog s' = dialog s.
Proof.
  intros Ht Hl Ho Hid s'. subst s'. cbn [step].
  destruct (trigger n) as [r|]; [|contradiction]. rewrite Hl.
  unfold handlePointerLeave, clear_timer. rewrite Hid. project_state.
  destruct (dialog_node n); rewrite ?Ho; project_state;
    (repeat split; [apply timer_lookup_cleared | exact Hl]).
Qed.

Lemma pointer_leave_before_open_witness :
  timer (after (step mounted (PointerLeaveTrigger None) hovering)) = None.
Proof.
  exact (proj1 (pointer_leave_before_open mounted hovering 1 None
                  ltac:(discriminate) eq_refl eq_refl eq_refl)).
Defined.

(** *** More than one timer *)

(** C7 fails on the code: one pointer entering and leaving the trigger in
    turn leaves two hover-intent timers pending. The timer scheduled while
    [showDialog] awaits the placement (handle 3) survives the Escape that
    closes the dialog, because [closeDialog] removes the pointer-leave
    listener of the trigger and does not clear the timer; the next
    pointer-enter overwrites [timer] with handle 4 and nothing can cancel
    handle 3 any more. *)
Theorem hover_twice_during_show_leaves_two_timers :
  let s := run mounted hover_twice_during_show connected in
  pending_hover_timers s = [3%positive; 4%positive] /\
  timer s = Some 4%positive /\
  open (dialog s) = false /\
  open (dialog (run mounted [PointerLeaveTrigger None; Timeout 3; Timeout 5] s))
  = true.
Proof. vm_compute. repeat split. Qed.

(** Two pointers entering the trigger one after the other do the same:
    [pointerenterHandler] schedules a timer without clearing the one it
    holds. *)
Example two_pointers_leave_two_timers :
  pending_hover_timers (run mounted [PointerEnter; PointerEnter] connected)
  = [1%positive; 2%positive].
Proof. vm_compute. reflexivity. Qed.

(** *** Breakpoint changes *)

Lemma removeDesktopListeners_after (n : nodes) (s : state) :
  timer (after (removeDesktopListeners n s)) = None /\
  forall id : positive,
    timer s = Some id -> (id < next_timer s)%positive ->
    cancelled id (after (removeDesktopListeners n s)).
Proof.
  unfold removeDesktopListeners, clear_timer, cancelled. split.
  - repeat case_match; simplify_eq; project_state; congruence.
  - intros id Hid Hlt.
    destruct (trigger n), (pointerenterHandler s); project_state;
      rewrite Hid; project_state;
      (split; [exact Hlt | apply timer_lookup_cleared]).
Qed.

Lemma removeDesktopListeners_unwires (n : nodes) (s : state) (h : nat) :
  trigger n <> None -> pointerenterHandler s = Some h ->
  let unwired := after (removeDesktopListeners n s) in
  has_listener pointerenter (PointerenterHandler h) (trigger_listeners unwired) = false /\
  has_listener pointerleave HandlePointerLeave (trigger_listeners unwired) = false /\
  pointerenterHandler unwired = None.
Proof.
  intros Ht Hh unwired. subst unwired.
  unfold removeDesktopListeners, clear_timer.
  destruct (trigger n); [|contradiction]. rewrite Hh. project_state.
  assert (H1 : forall ls : listeners,
             has_listener pointerenter (PointerenterHandler h)
               (removeEventListener pointerleave HandlePointerLeave
                  (removeEventListener pointerenter (PointerenterHandler h) ls))
             = false)
    by (intros ls; apply has_listener_removed, has_listener_remove).
  destruct (timer s); project_state;
    (repeat split; [apply H1 | apply has_listener_remove]).
Qed.

Lemma pending_hover_timers_cleared (s : state) :
  (forall id : positive, id ∈ pending_hover_timers s -> timer s = Some id) ->
  pending_hover_timers (clear_timer s) = [].
Proof.
  intros Htracked. apply elem_of_nil_inv. intros id Hin.
  unfold clear_timer, pending_hover_timers in *.
  destruct (timer s) as [id0|] eqn:Hid; project_state.
  - apply list_elem_of_omap in Hin as [[i cb] [Hi Hcb]].
    apply list_elem_of_filter in Hi as [Hne Hi]. cbn in Hne.
    destruct cb; [|discriminate]. injection Hcb as ->.
    assert (Hsome : Some id0 = Some id).
    { apply Htracked, list_elem_of_omap. exists (id, HoverIntent).
      split; [exact Hi | reflexivity]. }
    congruence.
  - specialize (Htracked id Hin). discriminate.
Qed.

Lemma removeDesktopListeners_timers (n : nodes) (s : state) :
  timers (after (removeDesktopListeners n s)) = timers (clear_timer s).
Proof.
  unfold removeDesktopListeners, clear_timer.
  destruct (trigger n), (pointerenterHandler s); project_state;
    destruct (timer s); reflexivity.
Qed.

Lemma setupDesktopListeners_timers (n : nodes) (s : state) :
  timers (after (setupDesktopListeners n s)) = timers s /\
  timer (after (setupDesktopListeners n s)) = timer s.
Proof.
  unfold setupDesktopListeners. repeat case_match; split; reflexivity.
Qed.

(** X12. What a breakpoint change does do: it first removes the hover
    listeners of the trigger and clears the hover-intent timer the component
    holds, then sets the hover listeners up again only if the viewport is
    not mobile. The timer the component held is cancelled: whatever events
    follow, it is not in the timer table and its firing does nothing. When
    the pending hover-intent timers are the one the component holds, none is
    pending afterwards. *)
Lemma breakpoint_change_clears_held_timer
    (isMobile : bool) (n : nodes) (s : state) :
  let unwired := after (removeDesktopListeners n s) in
  let s' := after (handleBreakpointChange isMobile n s) in
  s' = (if isMobile then unwired else after (setupDesktopListeners n unwired)) /\
  timer unwired = None /\
  timer s' = None /\
  (forall h : nat,
      trigger n <> None -> pointerenterHandler s = Some h ->
      has_listener pointerenter (PointerenterHandler h) (trigger_listeners unwired)
      = false /\
      has_listener pointerleave HandlePointerLeave (trigger_listeners unwired)
      = false /\
      pointerenterHandler unwired = None) /\
  (isMobile = false -> trigger n <> None -> dialog_node n <> None ->
   pointerenterHandler s' = Some (next_closure s) /\
   has_listener pointerenter (PointerenterHandler (next_closure s))
     (trigger_listeners s') = true) /\
  (forall id : positive,
      timer s = Some id -> (id < next_timer s)%positive ->
      forall es : list event,
        let later := run n es s' in
        timer_lookup id (timers later) = None /\
        step n (Timeout id) later = Returns later) /\
  ((forall id : positive, id ∈ pending_hover_timers s -> timer s = Some id) ->
   pending_hover_timers s' = []).
Proof.
  intros unwired s'.
  assert (Hs' : s' = (if isMobile then unwired
                      else after (setupDesktopListeners n unwired))).
  { subst s' unwired. unfold handleBreakpointChange, removeDesktopListeners.
    unfold mbind, outcome_bind. destruct isMobile; reflexivity. }
  destruct (removeDesktopListeners_after n s) as [Htimer Hcancel].
  assert (Htimer' : timer s' = None).
  { rewrite Hs'. destruct isMobile; [exact Htimer|].
    rewrite (proj2 (setupDesktopListeners_timers n unwired)). exact Htimer. }
  split; [exact Hs'|]. split; [exact Htimer|]. split; [exact Htimer'|].
  split; [intros h; apply removeDesktopListeners_unwires|].
  split; [|split].
  - intros -> Ht Hd. rewrite Hs'. unfold setupDesktopListeners.
    destruct (trigger n); [|contradiction].
    destruct (dialog_node n); [|contradiction].
    assert (Hc : next_closure unwired = next_closure s).
    { subst unwired. unfold removeDesktopListeners, clear_timer.
      repeat case_match; reflexivity. }
    project_state. rewrite Hc. split; [reflexivity | apply has_listener_add].
  - intros id Hid Hlt es later.
    assert (Hc : cancelled id later).
    { subst later. apply run_cancelled. rewrite Hs'.
      destruct isMobile; [apply Hcancel; assumption|].
      apply setupDesktopListeners_cancelled, Hcancel; assumption. }
    split; [apply Hc | apply cancelled_never_fires, Hc].
  - intros Htracked.
    assert (Hts : timers s' = timers (clear_timer s)).
    { rewrite Hs'. destruct isMobile.
      - apply removeDesktopListeners_timers.
      - rewrite (proj1 (setupDesktopListeners_timers n unwired)).
        apply removeDesktopListeners_timers. }
    rewrite <- (pending_hover_timers_cleared s Htracked).
    unfold pending_hover_timers. rewrite Hts. reflexivity.
Qed.

(** The scenario of the specification: the pointer enters, the breakpoint
    flips to mobile, and the timer of that pointer-enter never fires. *)
Lemma pending_timer_cancelled_by_breakpoint :
  forall es : list event,
    step mounted (Timeout 1)
      (run mounted es (after (handleBreakpointChange true mounted hovering)))
    = Returns
        (run mounted es (after (handleBreakpointChange true mounted hovering))).
Proof.
  intros es.
  destruct (breakpoint_change_clears_held_timer true mounted hovering)
    as (_ & _ & _ & _ & _ & Hnever & _).
  exact (proj2 (Hnever 1%positive eq_refl eq_refl es)).
Defined.

(** C8 fails on the code in the state the second timer of C7 is left
    in. With the two timers of [hover_twice_during_show] pending, a
    breakpoint change to mobile removes the hover listeners and clears
    handle 4, the one [timer] holds; handle 3 stays pending, fires, and the
    dialog opens on the mobile viewport. *)
Theorem orphaned_timer_survives_breakpoint_change :
  let s := run mounted hover_twice_during_show connected in
  let mobile := after (step mounted (BreakpointChange true) s) in
  pending_hover_timers s = [3%positive; 4%positive] /\
  pointerenter_closures (trigger_listeners mobile) = [] /\
  timer mobile = None /\
  pending_hover_timers mobile = [3%positive] /\
  open (dialog (run mounted [Timeout 3; Timeout 5] mobile)) = true.
Proof. vm_compute. repeat split. Qed.

End HoverFacts.

(** ** The offset when nothing overflows *)

Module OffsetFacts.

Import Geometry Dom Hotspot Scenarios PlacementFacts MeasurementFacts.
Local Open Scope float_scope.

(** X2. When the placement is ['center'], or when neither of the two
    tests on the overlay started at the trigger's top succeeds (it does not
    end past the container's height minus the edge gap, and it does not
    start above the edge gap), the offset is zero, and an offset left in the
    style by an earlier placement is removed. *)
Theorem no_overflow_no_offset
    (containerRect triggerRect : DOMRect) (dialogWidth dialogHeight : float)
    (d : HTMLDialogElement) :
  let p := calculatePlacement containerRect triggerRect dialogWidth dialogHeight in
  let top := rect_top triggerRect - rect_top containerRect in
  px p = HCenter \/
  (js_gt (top + dialogHeight) (rect_height containerRect - CONTAINER_GAP) = false /\
   js_lt top CONTAINER_GAP = false) ->
  verticalOffset p = 0 /\
  style (publish p d) !! "--dialog-vertical-offset" = None.
Proof.
  intros p top Hcase.
  assert (Ho : verticalOffset p = 0).
  { subst p top. destruct Hcase as [Hx | [H1 H2]];
      placement_cases; solve [reflexivity | discriminate | congruence]. }
  split; [exact Ho|].
  rewrite publish_offset, Ho. reflexivity.
Qed.

Lemma no_overflow_no_offset_witness :
  verticalOffset (calculatePlacement narrow_container tall_trigger 80 80) = 0.
Proof.
  exact (proj1 (no_overflow_no_offset narrow_container tall_trigger 80 80
                  plain_dialog (or_introl eq_refl))).
Defined.

End OffsetFacts.

(** ** Listeners registered and removed *)

Module ListenerFacts.

Import Geometry Dom Hotspot Scenarios LifecycleFacts HoverFacts.

(** *** [addEventListener] and [removeEventListener] *)

Lemma removeEventListener_absent (ty : event_type) (l : listener) (ls : listeners) :
  has_listener ty l ls = false -> removeEventListener ty l ls = ls.
Proof.
  rewrite has_listener_false. unfold removeEventListener, listeners in *.
  induction ls as [|e ls IH]; intros Hn; [reflexivity|].
  apply not_elem_of_cons in Hn as [Hne Hn].
  rewrite filter_cons_True by congruence. rewrite IH by exact Hn. reflexivity.
Qed.

Lemma removeEventListener_app (ty : event_type) (l : listener) (ls ks : listeners) :
  removeEventListener ty l (ls ++ ks)
  = removeEventListener ty l ls ++ removeEventListener ty l ks.
Proof. unfold removeEventListener. apply filter_app. Qed.

(** Removing a listener right after adding it gives the list back, if it
    was not registered before. *)
Lemma remove_add_same (ty : event_type) (l : listener) (ls : listeners) :
  has_listener ty l ls = false ->
  removeEventListener ty l (addEventListener ty l ls) = ls.
Proof.
  intros Hn. unfold addEventListener. rewrite Hn.
  rewrite removeEventListener_app, removeEventListener_absent by exact Hn.
  unfold removeEventListener, listeners in *.
  rewrite filter_cons_False by (intros H; apply H; reflexivity).
  rewrite filter_nil. apply app_nil_r.
Qed.

Lemma has_listener_remove_other (ty ty' : event_type) (l l' : listener)
    (ls : listeners) :
  (ty, l) <> (ty', l') ->
  has_listener ty l (removeEventListener ty' l' ls) = has_listener ty l ls.
Proof.
  intros Hne. unfold has_listener, removeEventListener.
  apply bool_decide_ext. rewrite list_elem_of_filter. tauto.
Qed.

(** Removing one listener and adding another commute. *)
Lemma remove_add_other (ty ty' : event_type) (l l' : listener) (ls : listeners) :
  (ty, l) <> (ty', l') ->
  removeEventListener ty l (addEventListener ty' l' ls)
  = addEventListener ty' l' (removeEventListener ty l ls).
Proof.
  intros Hne. unfold addEventListener.
  rewrite has_listener_remove_other by congruence.
  destruct (has_listener ty' l' ls); [reflexivity|].
  rewrite removeEventListener_app. f_equal.
  unfold removeEventListener, listeners in *.
  rewrite filter_cons_True by congruence. reflexivity.
Qed.

Lemma has_listener_add_other (ty ty' : event_type) (l l' : listener)
    (ls : listeners) :
  has_listener ty l ls = true ->
  has_listener ty l (addEventListener ty' l' ls) = true.
Proof.
  rewrite !has_listener_true. unfold addEventListener.
  destruct (has_listener ty' l' ls); [tauto|].
  intros Hin. apply elem_of_app. left. exact Hin.
Qed.

Lemma addEventListener_present (ty : event_type) (l : listener) (ls : listeners) :
  has_listener ty l ls = true -> addEventListener ty l ls = ls.
Proof. intros H. unfold addEventListener. rewrite H. reflexivity. Qed.

(** *** [showDialog] and [closeDialog] *)

(** X4. Whatever the state, after [closeDialog] with a dialog present none of
    the listeners [showDialog] registers is registered: not the click,
    keydown and keyup listeners of the body, not the pointer-leave listener
    of the dialog, and, with a trigger present, not the pointer-leave
    listener of the trigger; the dialog is closed and marked as closing. *)
Theorem close_removes_show_listeners (n : nodes) (s : state) :
  dialog_node n <> None ->
  let s' := after (closeDialog n s) in
  has_listener click LightDismissMouse (body_listeners s') = false /\
  has_listener keydown LightDismissKeyboard (body_listeners s') = false /\
  has_listener keyup LightDismissKeyboard (body_listeners s') = false /\
  has_listener pointerleave HandlePointerLeave (dialog_listeners (dialog s')) = false /\
  (trigger n <> None ->
   has_listener pointerleave HandlePointerLeave (trigger_listeners s') = false) /\
  open (dialog s') = false /\
  dataset (dialog s') !! "closing" = Some "true".
Proof.
  intros Hd s'. subst s'. unfold closeDialog.
  destruct (dialog_node n); [|contradiction].
  destruct (trigger n) as [r|]; project_state; cbn [dialog_listeners
    set_dialog_listeners close set_open set_dataset open dataset];
    (repeat split;
     [ do 2 apply has_listener_removed; apply has_listener_remove
     | apply has_listener_removed; apply has_listener_remove
     | apply has_listener_remove
     | apply has_listener_remove
     | try (intros _; apply has_listener_remove); try contradiction
     | apply lookup_insert_eq ]).
Qed.

Lemma close_removes_show_listeners_witness :
  has_listener click LightDismissMouse
    (body_listeners (after (closeDialog mounted opened))) = false.
Proof.
  exact (proj1 (close_removes_show_listeners mounted opened
                  ltac:(discriminate))).
Defined.

(** X5. A [showDialog] that ran to its end followed by a [closeDialog] gives
    back the listener lists of the body and of the dialog as they were
    before, when none of the listeners was registered then. *)
Theorem show_then_close_restores_listeners (n : nodes) (s : state) :
  dialog_node n <> None ->
  has_listener click LightDismissMouse (body_listeners s) = false ->
  has_listener keydown LightDismissKeyboard (body_listeners s) = false ->
  has_listener keyup LightDismissKeyboard (body_listeners s) = false ->
  has_listener pointerleave HandlePointerLeave (dialog_listeners (dialog s)) = false ->
  let s' := after (closeDialog n (showDialog_resume s)) in
  body_listeners s' = body_listeners s /\
  dialog_listeners (dialog s') = dialog_listeners (dialog s).
Proof.
  intros Hd Hc Hkd Hku Hpl s'. subst s'. unfold closeDialog, showDialog_resume.
  destruct (dialog_node n); [|contradiction].
  destruct (trigger n) as [r|]; project_state; cbn [dialog_listeners
    set_dialog_listeners close show set_open set_dataset open dataset];
    (split;
     [ rewrite !(remove_add_other click) by discriminate;
       rewrite (remove_add_same click) by exact Hc;
       rewrite !(remove_add_other keydown) by discriminate;
       rewrite (remove_add_same keydown) by exact Hkd;
       apply remove_add_same, Hku
     | apply remove_add_same, Hpl ]).
Qed.

Lemma show_then_close_restores_listeners_witness :
  body_listeners (after (closeDialog mounted (showDialog_resume connected)))
  = body_listeners connected.
Proof.
  exact (proj1 (show_then_close_restores_listeners mounted connected
                  ltac:(discriminate) eq_refl eq_refl eq_refl eq_refl)).
Defined.

(** The listeners the rest of [showDialog] registers are registered
    afterwards, whatever was registered before. *)
Lemma showDialog_resume_listeners (s : state) :
  let s' := showDialog_resume s in
  has_listener click LightDismissMouse (body_listeners s') = true /\
  has_listener keydown LightDismissKeyboard (body_listeners s') = true /\
  has_listener keyup LightDismissKeyboard (body_listeners s') = true /\
  has_listener pointerleave HandlePointerLeave (dialog_listeners (dialog s')) = true.
Proof.
  unfold showDialog_resume. project_state. cbn [dialog_listeners
    set_dialog_listeners show set_open set_dataset open dataset].
  repeat split.
  - do 2 apply has_listener_add_other. apply has_listener_add.
  - apply has_listener_add_other. apply has_listener_add.
  - apply has_listener_add.
  - apply has_listener_add.
Qed.

(** X6. Showing a dialog that is shown already changes nothing: no listener
    is registered twice and the state is the same. *)
Theorem showDialog_resume_idempotent (s : state) :
  showDialog_resume (showDialog_resume s) = showDialog_resume s.
Proof.
  destruct (showDialog_resume_listeners s) as (Hc & Hkd & Hku & Hpl).
  unfold showDialog_resume in *. project_state. cbn [dialog_listeners
    set_dialog_listeners show set_open set_dataset open dataset style] in *.
  unfold set_dialog, set_body_listeners, set_dialog_listeners, show, set_open,
    set_dataset. cbn [dialog trigger_listeners body_listeners
    mediaQueryLarge_listeners pointerenterHandler timer timers next_timer
    next_closure awaiting_animations open dataset style dialog_listeners].
  rewrite insert_insert_eq.
  rewrite (addEventListener_present pointerleave) by exact Hpl.
  rewrite (addEventListener_present click) by exact Hc.
  rewrite (addEventListener_present keydown) by exact Hkd.
  rewrite (addEventListener_present keyup) by exact Hku.
  reflexivity.
Qed.

End ListenerFacts.

(** ** Opening and dismissing *)

Module DismissFacts.

Import Geometry Dom Hotspot Scenarios LifecycleFacts HoverFacts ListenerFacts.





(** What [closeDialog] leaves of the dialog is closed, whatever it was. *)
Lemma closeDialog_closes (n : nodes) (s : state) :
  dialog_node n <> None ->
  open (dialog (after (closeDialog n s))) = false /\
  awaiting_animations (after (closeDialog n s)) = S (awaiting_animations s).
Proof.
  intros Hd. destruct (dialog_node n) as [r|] eqn:Hr; [|contradiction].
  destruct (closeDialog_dialog n s r Hr) as [Hdlg Haw].
  rewrite Hdlg, Haw. split; reflexivity.
Qed.

(** X8. A dialog that was shown can always be dismissed: once [showDialog]
    has run to its end, an Escape keydown and a click outside the dialog
    each close it; and when the animations have settled without the dialog
    being reopened, [showing], [closing] and [placement] are gone. *)
Theorem shown_dialog_can_be_dismissed (n : nodes) (s : state) :
  dialog_node n <> None ->
  let shown := showDialog_resume s in
  let escaped := after (step n escape shown) in
  let clicked := after (step n (Click true) shown) in
  let settled := after (step n AnimationsSettled escaped) in
  open (dialog shown) = true /\
  open (dialog escaped) = false /\
  open (dialog clicked) = false /\
  open (dialog settled) = false /\
  dataset (dialog settled) !! "showing" = None /\
  dataset (dialog settled) !! "closing" = None /\
  dataset (dialog settled) !! "placement" = None.
Proof.
  intros Hd shown escaped clicked settled.
  destruct (showDialog_resume_listeners s) as (Hc & Hkd & _ & _).
  assert (He : step n escape (showDialog_resume s)
               = closeDialog n (showDialog_resume s)).
  { unfold escape. cbn [step type]. rewrite Hkd.
    unfold lightDismissKeyboard. destruct (dialog_node n); [|contradiction].
    reflexivity. }
  assert (Hk : step n (Click true) (showDialog_resume s)
               = closeDialog n (showDialog_resume s)).
  { cbn [step]. rewrite Hc.
    unfold lightDismissMouse. destruct (dialog_node n); [|contradiction].
    reflexivity. }
  destruct (closeDialog_closes n (showDialog_resume s) Hd) as [Hclosed Haw].
  subst settled clicked escaped shown. rewrite Hk, He.
  split; [reflexivity|].
  split; [exact Hclosed|].
  split; [exact Hclosed|].
  cbn [step]. rewrite Haw. project_state.
  unfold closeDialog_resume. rewrite Hclosed. cbn [negb open dataset set_dataset].
  repeat split.
  - exact Hclosed.
  - rewrite !lookup_delete_ne by discriminate. apply lookup_delete_eq.
  - rewrite lookup_delete_ne by discriminate. apply lookup_delete_eq.
  - apply lookup_delete_eq.
Qed.

Lemma shown_dialog_can_be_dismissed_witness :
  open (dialog (after (step mounted escape (showDialog_resume connected))))
  = false.
Proof.
  destruct (shown_dialog_can_be_dismissed mounted connected ltac:(discriminate))
    as (_ & Hescaped & _).
  exact Hescaped.
Defined.

(** X9. While the dialog is open, the pointer can travel between the trigger
    and the dialog without closing it: leaving the trigger for the dialog
    or for an element inside it, and leaving the dialog for the trigger,
    keep it open. Leaving the trigger for anything else, and leaving the
    dialog for anything but the trigger, close it. *)
Theorem pointer_leave_closes_unless_bridging
    (n : nodes) (s : state) (e : PointerEvent) :
  dialog_node n <> None ->
  trigger n <> None ->
  open (dialog s) = true ->
  let bridging :=
    match target e, relatedTarget e with
    | NodeTrigger, Some NodeDialog => true
    | NodeTrigger, Some NodeInsideDialog => true
    | NodeDialog, Some NodeTrigger => true
    | NodeTrigger, _ => false
    | NodeDialog, _ => false
    | _, _ => true
    end in
  open (dialog (after (handlePointerLeave e n s))) = bridging.
Proof.
  intros Hd Ht Ho bridging. subst bridging.
  unfold handlePointerLeave, is_trigger.
  destruct (dialog_node n) as [r|] eqn:Hr; [|contradiction].
  destruct (trigger n) as [t|] eqn:Htr; [|contradiction].
  assert (Hopen : open (dialog (clear_timer s)) = true).
  { unfold clear_timer. destruct (timer s); exact Ho. }
  rewrite Hopen. cbn [negb].
  assert (Hclose : open (dialog (after (closeDialog n (clear_timer s)))) = false).
  { apply closeDialog_closes. congruence. }
  destruct e as [tg [[| | |]|]]; destruct tg; cbn [target relatedTarget andb orb negb after];
    solve [exact Hopen | exact Hclose].
Qed.

Lemma pointer_leave_closes_unless_bridging_witness :
  open (dialog (after (handlePointerLeave
                         (mkPointerEvent NodeTrigger (Some NodeInsideDialog))
                         mounted opened))) = true.
Proof.
  exact (pointer_leave_closes_unless_bridging mounted opened
           (mkPointerEvent NodeTrigger (Some NodeInsideDialog))
           ltac:(discriminate) ltac:(discriminate) eq_refl).
Defined.

(** X10. The keyboard and the mouse close an open dialog in exactly these
    cases: a keydown of Escape, a keyup while the dialog has no focus, and
    a click outside the dialog. Any other key or click leaves the state as
    it is. *)
Theorem light_dismiss_policy
    (n : nodes) (s : state) (e : KeyboardEvent) (hasFocus clickedOutside : bool) :
  dialog_node n <> None ->
  open (dialog s) = true ->
  (open (dialog (after (lightDismissKeyboard e hasFocus n s))) = false <->
   (type e = keydown /\ key e = "Escape") \/ (type e = keyup /\ hasFocus = false)) /\
  (open (dialog (after (lightDismissKeyboard e hasFocus n s))) = true ->
   lightDismissKeyboard e hasFocus n s = Returns s) /\
  (open (dialog (after (lightDismissMouse clickedOutside n s))) = false <->
   clickedOutside = true) /\
  (clickedOutside = false -> lightDismissMouse clickedOutside n s = Returns s).
Proof.
  intros Hd Ho.
  destruct (closeDialog_closes n s Hd) as [Hclosed _].
  unfold lightDismissKeyboard, lightDismissMouse.
  destruct (dialog_node n); [|contradiction].
  repeat split.
  - destruct (type e) eqn:Hty, hasFocus; cbn [negb andb orb];
      repeat case_bool_decide; cbn [negb andb orb after];
      intros Hc; try congruence; tauto.
  - intros [[Hty Hkey] | [Hty ->]]; rewrite Hty.
    + rewrite Hkey. rewrite !bool_decide_eq_true_2 by reflexivity. exact Hclosed.
    + rewrite (bool_decide_eq_true_2 (keyup = keyup)) by reflexivity.
      rewrite orb_true_r. exact Hclosed.
  - destruct (_ || _); [|reflexivity]. intros Hc. congruence.
  - destruct clickedOutside; [reflexivity|]. cbn [after]. congruence.
  - intros ->. exact Hclosed.
  - intros ->. reflexivity.
Qed.

Lemma light_dismiss_policy_witness :
  lightDismissKeyboard (mkKeyboardEvent keydown "Tab") true mounted opened
  = Returns opened.
Proof.
  destruct (light_dismiss_policy mounted opened (mkKeyboardEvent keydown "Tab")
              true false ltac:(discriminate) eq_refl) as (_ & Hkeep & _).
  apply Hkeep. reflexivity.
Defined.

End DismissFacts.

(** ** The hover listeners of the trigger *)

Module WiringFacts.

Import Geometry Dom Hotspot Scenarios LifecycleFacts HoverFacts ListenerFacts.

Lemma closures_app (ls ks : listeners) :
  pointerenter_closures (ls ++ ks)
  = pointerenter_closures ls ++ pointerenter_closures ks.
Proof. unfold pointerenter_closures, listeners in *. apply omap_app. Qed.

Lemma closures_add_leave (ls : listeners) :
  pointerenter_closures (addEventListener pointerleave HandlePointerLeave ls)
  = pointerenter_closures ls.
Proof.
  unfold addEventListener. destruct (has_listener _ _ _); [reflexivity|].
  rewrite closures_app. apply app_nil_r.
Qed.

Lemma closures_remove_leave (ls : listeners) :
  pointerenter_closures (removeEventListener pointerleave HandlePointerLeave ls)
  = pointerenter_closures ls.
Proof.
  unfold removeEventListener, pointerenter_closures, listeners in *.
  induction ls as [|[ty l] ls IH]; [reflexivity|].
  destruct (decide ((ty, l) = (pointerleave, HandlePointerLeave))) as [E|N].
  - rewrite filter_cons_False by (intros H; apply H; exact E).
    injection E as -> ->. exact IH.
  - rewrite filter_cons_True by exact N. cbn [omap list_omap].
    rewrite IH. reflexivity.
Qed.

Lemma closures_remove_enter (h : nat) (ls : listeners) :
  pointerenter_closures ls = [h] ->
  pointerenter_closures
    (removeEventListener pointerenter (PointerenterHandler h) ls) = [].
Proof.
  intros Hone. apply elem_of_nil_inv. intros k Hin.
  unfold pointerenter_closures, removeEventListener in *.
  apply list_elem_of_omap in Hin as [[ty l] [Hin Hk]].
  apply list_elem_of_filter in Hin as [Hne Hin].
  destruct ty; try discriminate. destruct l; try discriminate.
  injection Hk as ->.
  assert (Hk : k ∈ [h]).
  { rewrite <- Hone. apply list_elem_of_omap.
    exists (pointerenter, PointerenterHandler k). split; [exact Hin|reflexivity]. }
  apply list_elem_of_singleton in Hk. subst k. apply Hne. reflexivity.
Qed.

Lemma closures_add_enter (h : nat) (ls : listeners) :
  pointerenter_closures ls = [] ->
  pointerenter_closures
    (addEventListener pointerenter (PointerenterHandler h) ls) = [h].
Proof.
  intros Hnone. unfold addEventListener.
  destruct (has_listener _ _ _) eqn:Hin.
  - apply has_listener_true in Hin.
    assert (Hh : h ∈ pointerenter_closures ls).
    { apply list_elem_of_omap. exists (pointerenter, PointerenterHandler h).
      split; [exact Hin|reflexivity]. }
    rewrite Hnone in Hh. apply not_elem_of_nil in Hh. contradiction.
  - rewrite closures_app, Hnone. reflexivity.
Qed.

(** The methods that touch only the pointer-leave listener of the trigger
    keep the wiring. *)
Ltac wired_by_cases :=
  unfold wired; intros Hw; unfold_methods; unfold clear_timer in *;
  repeat case_match; simplify_eq; project_state;
  rewrite ?closures_remove_leave, ?closures_add_leave; exact Hw.

Lemma run_pointerenterHandler_wired (s : state) :
  wired s -> wired (after (run_pointerenterHandler s)).
Proof. wired_by_cases. Qed.

Lemma closeDialog_wired (n : nodes) (s : state) :
  wired s -> wired (after (closeDialog n s)).
Proof. wired_by_cases. Qed.

Lemma showDialog_wired (n : nodes) (s : state) :
  wired s -> wired (after (showDialog n s)).
Proof. wired_by_cases. Qed.

Lemma clearTimeout_wired (id : positive) (s : state) :
  wired s -> wired (clearTimeout id s).
Proof. intros Hw. exact Hw. Qed.

Lemma handlePointerLeave_wired (e : PointerEvent) (n : nodes) (s : state) :
  wired s -> wired (after (handlePointerLeave e n s)).
Proof.
  intros Hw. unfold handlePointerLeave.
  assert (Hc : wired (clear_timer s))
    by (unfold clear_timer; destruct (timer s); exact Hw).
  repeat case_match; try exact Hc; apply closeDialog_wired, Hc.
Qed.

Lemma lightDismissMouse_wired (b : bool) (n : nodes) (s : state) :
  wired s -> wired (after (lightDismissMouse b n s)).
Proof.
  intros Hw. unfold lightDismissMouse.
  repeat case_match; try exact Hw; apply closeDialog_wired, Hw.
Qed.

Lemma lightDismissKeyboard_wired (e : KeyboardEvent) (f : bool) (n : nodes)
    (s : state) :
  wired s -> wired (after (lightDismissKeyboard e f n s)).
Proof.
  intros Hw. unfold lightDismissKeyboard.
  repeat case_match; try exact Hw; apply closeDialog_wired, Hw.
Qed.

(** Removing the hover listeners and setting them up again. *)
Lemma removeDesktopListeners_wired (n : nodes) (s : state) :
  wired s ->
  wired (after (removeDesktopListeners n s)) /\
  (trigger n <> None -> pointerenterHandler (after (removeDesktopListeners n s)) = None).
Proof.
  unfold wired, removeDesktopListeners, clear_timer. intros Hw.
  destruct (trigger n) as [r|], (pointerenterHandler s) as [h|] eqn:Hh;
    project_state; destruct (timer s); project_state;
    rewrite ?closures_remove_leave, ?Hh;
    (split; [first [exact Hw | apply closures_remove_enter, Hw]
            |first [reflexivity | contradiction]]).
Qed.

Lemma setupDesktopListeners_wired (n : nodes) (s : state) :
  wired s -> (trigger n <> None -> pointerenterHandler s = None) ->
  wired (after (setupDesktopListeners n s)).
Proof.
  unfold wired, setupDesktopListeners. intros Hw Hnone.
  destruct (trigger n) as [r|]; [|exact Hw].
  destruct (dialog_node n); [|exact Hw].
  rewrite Hnone in Hw by discriminate. project_state.
  apply closures_add_enter, Hw.
Qed.

Lemma handleBreakpointChange_wired (isMobile : bool) (n : nodes) (s : state) :
  wired s -> wired (after (handleBreakpointChange isMobile n s)).
Proof.
  intros Hw. destruct (removeDesktopListeners_wired n s Hw) as [Hr Hnone].
  unfold handleBreakpointChange, mbind, outcome_bind.
  change (removeDesktopListeners n s)
    with (Returns (after (removeDesktopListeners n s))).
  destruct isMobile; cbn [negb]; [exact Hr|].
  apply setupDesktopListeners_wired; assumption.
Qed.

Lemma pointerenter_dispatch_wired (l : list nat) (s : state) :
  wired s ->
  wired (after (foldl (fun o _ => s ← o; run_pointerenterHandler s) (Returns s) l)).
Proof.
  revert s. induction l as [|h l IH]; intros s Hw; [exact Hw|].
  cbn [foldl]. unfold mbind at 2, outcome_bind at 2.
  rewrite run_pointerenterHandler_returns.
  apply IH, run_pointerenterHandler_wired, Hw.
Qed.

Lemma step_wired (n : nodes) (e : event) (s : state) :
  wired s -> wired (after (step n e s)).
Proof.
  intros Hw.
  destruct e as [|related|related|id0| |clickedOutside|e hasFocus|isMobile];
    cbn [step].
  - destruct (trigger n); [|exact Hw]. apply pointerenter_dispatch_wired, Hw.
  - destruct (trigger n); [|exact Hw].
    destruct (has_listener _ _ _); [|exact Hw].
    apply handlePointerLeave_wired, Hw.
  - destruct (dialog_node n); [|exact Hw].
    destruct (has_listener _ _ _); [|exact Hw].
    apply handlePointerLeave_wired, Hw.
  - destruct (timer_lookup id0 (timers s)) as [[|]|]; [| |exact Hw].
    + apply showDialog_wired, clearTimeout_wired, Hw.
    + exact Hw.
  - destruct (awaiting_animations s); exact Hw.
  - destruct (has_listener _ _ _); [|exact Hw].
    apply lightDismissMouse_wired, Hw.
  - destruct (has_listener _ _ _); [|exact Hw].
    apply lightDismissKeyboard_wired, Hw.
  - destruct (has_listener _ _ _); [|exact Hw].
    apply handleBreakpointChange_wired, Hw.
Qed.

(** X13. Whatever events arrive, and however often the breakpoint changes,
    the trigger carries at most one pointer-enter listener, and it is the
    closure the component holds: listeners do not pile up. *)
Theorem at_most_one_pointerenter_listener
    (n : nodes) (es : list event) (s : state) :
  wired s ->
  wired (run n es s) /\
  length (pointerenter_closures (trigger_listeners (run n es s))) <= 1.
Proof.
  intros Hw.
  assert (Hrun : wired (run n es s)).
  { revert s Hw. induction es as [|e es IH]; intros s Hw; [exact Hw|].
    cbn [run]. apply IH, step_wired, Hw. }
  split; [exact Hrun|].
  unfold wired in Hrun. rewrite Hrun.
  destruct (pointerenterHandler (run n es s)); cbn; lia.
Qed.

Lemma at_most_one_pointerenter_listener_witness :
  length (pointerenter_closures
            (trigger_listeners
               (run mounted [BreakpointChange false; BreakpointChange false]
                  connected))) <= 1.
Proof.
  exact (proj2 (at_most_one_pointerenter_listener mounted
                  [BreakpointChange false; BreakpointChange false] connected
                  eq_refl)).
Defined.

Lemma closures_none_not_registered (h : nat) (ls : listeners) :
  pointerenter_closures ls = [] ->
  has_listener pointerenter (PointerenterHandler h) ls = false.
Proof.
  intros Hnone. apply has_listener_false. intros Hin.
  assert (Hh : h ∈ pointerenter_closures ls).
  { apply list_elem_of_omap. exists (pointerenter, PointerenterHandler h).
    split; [exact Hin|reflexivity]. }
  rewrite Hnone in Hh. apply not_elem_of_nil in Hh. exact Hh.
Qed.

(** X14. Unmounting undoes mounting. From a state in which the component has
    registered nothing and holds no timer, [connectedCallback] followed by
    [disconnectedCallback] gives back the listener lists of the trigger
    and of [mediaQueryLarge], holds no closure and no timer, and leaves the
    dialog, the body and the timer table as they were; on a mobile viewport
    and with nodes absent as well, and whether the callback of the base
    class returned or threw at the mount (at the unmount it returns). *)
Theorem disconnect_undoes_connect
    (super : base_callback) (isMobile : bool) (n : nodes) (s : state) :
  pointerenterHandler s = None ->
  pointerenter_closures (trigger_listeners s) = [] ->
  has_listener pointerleave HandlePointerLeave (trigger_listeners s) = false ->
  has_listener change HandleBreakpointChange (mediaQueryLarge_listeners s) = false ->
  timer s = None ->
  let s' :=
    after (disconnectedCallback BaseReturns n
             (after (connectedCallback super isMobile n s))) in
  trigger_listeners s' = trigger_listeners s /\
  mediaQueryLarge_listeners s' = mediaQueryLarge_listeners s /\
  pointerenterHandler s' = None /\
  timer s' = None /\
  timers s' = timers s /\
  dialog s' = dialog s /\
  body_listeners s' = body_listeners s.
Proof.
  intros Hh Hnone Hleave Hchange Ht s'. subst s'.
  pose proof (closures_none_not_registered (next_closure s) _ Hnone) as Henter.
  unfold disconnectedCallback, connectedCallback, setupDesktopListeners,
    removeDesktopListeners, clear_timer, call_base, mbind, outcome_bind.
  destruct super, isMobile, (trigger n) as [r|], (dialog_node n) as [d|];
    cbn [negb]; repeat (progress (project_state; rewrite ?Hh, ?Ht));
    rewrite ?remove_add_same by assumption;
    rewrite ?removeEventListener_absent by assumption;
    repeat split; assumption.
Qed.

Lemma disconnect_undoes_connect_witness :
  trigger_listeners
    (after (disconnectedCallback BaseReturns mounted
              (after (connectedCallback BaseReturns false mounted initial))))
  = trigger_listeners initial.
Proof.
  exact (proj1 (disconnect_undoes_connect BaseReturns false mounted initial
                  eq_refl eq_refl eq_refl eq_refl eq_refl)).
Defined.

End WiringFacts.

(** ** A hover from beginning to end *)

Module HoverCycleFacts.

Import Geometry Dom Hotspot Scenarios LifecycleFacts HoverFacts ListenerFacts
  DismissFacts WiringFacts.

Lemma pointerenter_while_open_witness :
  step mounted PointerEnter opened = Returns opened.
Proof. exact (pointerenter_while_open mounted opened eq_refl). Defined.

(** What a pointer-enter does to a closed dialog when the trigger carries
    the closure of the component: one timer is scheduled and held, and the
    pointer-leave listener is on the trigger. *)
Lemma pointerenter_schedules (n : nodes) (s : state) (h : nat) :
  trigger n <> None ->
  pointerenter_closures (trigger_listeners s) = [h] ->
  open (dialog s) = false ->
  after (step n PointerEnter s)
  = set_trigger_listeners
      (addEventListener pointerleave HandlePointerLeave (trigger_listeners s))
      (set_timer (Some (next_timer s))
         (set_next_timer (Pos.succ (next_timer s))
            (set_timers (timers s ++ [(next_timer s, HoverIntent)]) s))).
Proof.
  intros Ht Hc Ho. cbn [step]. destruct (trigger n); [|contradiction].
  rewrite Hc. cbn [foldl]. unfold mbind, outcome_bind, run_pointerenterHandler.
  rewrite Ho. reflexivity.
Qed.


(** The placement a hover publishes is the one the source computes in
    binary64: in the container whose top is at 39 the overlay 58.2 high
    does not fit below the trigger and is placed above it. *)
Example hover_publishes_the_rounded_placement :
  dataset (dialog (run mounted_scrolled [PointerEnter; Timeout 1; Timeout 2]
                     (after (connectedCallback BaseReturns false mounted_scrolled
                               initial))))
  !! "placement" = Some "center,top".
Proof. vm_compute. reflexivity. Qed.


(** X16. A pointer-enter directly followed by a pointer-leave opens
    nothing. When, with the dialog closed and the closure of the component
    on the trigger, the pointer-leave of the trigger is the next event after
    the pointer-enter, the timer of that pointer-enter is cancelled for
    good: whatever events follow, its firing does nothing. *)
Theorem aborted_hover_never_fires
    (n : nodes) (s : state) (h : nat) (related : option node)
    (es : list event) :
  trigger n <> None ->
  pointerenter_closures (trigger_listeners s) = [h] ->
  open (dialog s) = false ->
  let t := next_timer s in
  let left := run n [PointerEnter; PointerLeaveTrigger related] s in
  timer left = None /\
  open (dialog left) = false /\
  step n (Timeout t) (run n es left) = Returns (run n es left).
Proof.
  intros Ht Hc Ho t left. subst left. cbn [run].
  pose proof (pointerenter_schedules n s h Ht Hc Ho) as Henter.
  set (s1 := after (step n PointerEnter s)) in *.
  assert (Hleft : after (step n (PointerLeaveTrigger related) s1)
                  = set_timer None (clearTimeout t s1)).
  { cbn [step]. destruct (trigger n); [|contradiction].
    rewrite Henter at 1. project_state. rewrite has_listener_add.
    unfold handlePointerLeave, clear_timer.
    assert (Htimer : timer s1 = Some t) by (rewrite Henter; reflexivity).
    rewrite Htimer. project_state.
    assert (Hopen : open (dialog s1) = false) by (rewrite Henter; exact Ho).
    destruct (dialog_node n); rewrite ?Hopen; reflexivity. }
  rewrite Hleft.
  split; [reflexivity|].
  split; [rewrite Henter; exact Ho|].
  apply cancelled_never_fires, run_cancelled. split.
  - rewrite Henter. project_state. lia.
  - project_state. apply timer_lookup_cleared.
Qed.

Lemma aborted_hover_never_fires_witness :
  let left := run mounted [PointerEnter; PointerLeaveTrigger None] connected in
  step mounted (Timeout 1) (run mounted [PointerEnter] left)
  = Returns (run mounted [PointerEnter] left).
Proof.
  destruct (aborted_hover_never_fires mounted connected 0 None [PointerEnter]
              ltac:(discriminate) eq_refl eq_refl) as (_ & _ & Hnever).
  exact Hnever.
Defined.

(** X17. Unmounting, once the callback of the base class has returned,
    clears the timer the component holds, and that timer does not fire
    afterwards, whatever events follow; the breakpoint listener is
    removed. *)
Theorem disconnect_clears_held_timer
    (n : nodes) (s : state) (id : positive) (es : list event) :
  timer s = Some id ->
  (id < next_timer s)%positive ->
  let s' := after (disconnectedCallback BaseReturns n s) in
  timer s' = None /\
  has_listener change HandleBreakpointChange (mediaQueryLarge_listeners s') = false /\
  step n (Timeout id) (run n es s') = Returns (run n es s').
Proof.
  intros Hid Hlt s'.
  destruct (removeDesktopListeners_after n s) as [Htimer Hcancel].
  assert (Hs' : s' = set_mediaQueryLarge_listeners
                       (removeEventListener change HandleBreakpointChange
                          (mediaQueryLarge_listeners (after (removeDesktopListeners n s))))
                       (after (removeDesktopListeners n s)))
    by reflexivity.
  split; [rewrite Hs'; exact Htimer|].
  split; [rewrite Hs'; apply has_listener_remove|].
  apply cancelled_never_fires, run_cancelled.
  rewrite Hs'. exact (Hcancel id Hid Hlt).
Qed.

Lemma disconnect_clears_held_timer_witness :
  timer (after (disconnectedCallback BaseReturns mounted hovering)) = None.
Proof.
  exact (proj1 (disconnect_clears_held_timer mounted hovering 1 []
                  eq_refl eq_refl)).
Defined.

Lemma breakpoint_change_clears_held_timer_witness :
  let mobile := after (handleBreakpointChange true mounted hovering) in
  step mounted (Timeout 1) (run mounted [PointerEnter] mobile)
  = Returns (run mounted [PointerEnter] mobile).
Proof.
  destruct (breakpoint_change_clears_held_timer true mounted hovering)
    as (_ & _ & _ & _ & _ & Hnever & _).
  exact (proj2 (Hnever 1%positive eq_refl eq_refl [PointerEnter])).
Defined.

End HoverCycleFacts.
